(** * Agent transport and conversation state: a shallow embedding

    Models [agents/market_sentiment/agent.py] (the polling agent) and
    [agents/base_example/node.py] (the streaming agent).

    Both agents are [async] Python.  Every [await] on the outside world
    (HTTP request, language-model call, websocket operation, a registered
    handler) is modelled by taking the outcome of that await as an
    argument: a returned value or a raised exception.  Code between two
    awaits runs atomically, as it does under asyncio's cooperative
    scheduling.  Everything the code does to the outside world is recorded
    in a trace of effects.  A cancellation shows as a [BaseException]
    outcome of an await.  The sleep between two poll cycles, where the
    poll task spends its time and where the cancel of [stop] reaches it,
    takes the way it ends as an argument too. *)

From Stdlib Require Import QArith.
From stdpp Require Import gmap strings list fin_maps.

Local Open Scope string_scope.
Local Open Scope list_scope.

(** ** Python exceptions and outcomes *)

(** The exception classes the two files raise or distinguish in their
    [except] clauses.  [ConnectionClosed] is
    [websockets.exceptions.ConnectionClosed]; [OtherError] is any other
    class deriving from [Exception] (network, JSON, type errors);
    [NonError] is a class deriving from [BaseException] only
    ([asyncio.CancelledError], [KeyboardInterrupt]), which
    [except Exception] does not catch. *)
Inductive exc : Type :=
| ConnectionClosed
| RuntimeError (msg : string)
| ValueError
| IndexError
| KeyError
| AttributeError
| ValidationError
| OtherError (name : string)
| NonError (name : string).

(** [isinstance(e, Exception)] *)
Definition is_Exception (e : exc) : bool :=
  match e with
  | NonError _ => false
  | _ => true
  end.

(** [isinstance(e, websockets.exceptions.ConnectionClosed)] *)
Definition is_ConnectionClosed (e : exc) : bool :=
  match e with
  | ConnectionClosed => true
  | _ => false
  end.

Inductive outcome (A : Type) : Type :=
| Ret (a : A)
| Raise (e : exc).
Arguments Ret {A} a.
Arguments Raise {A} e.

(** ** Execution monad: state, effect trace, exceptions

    A computation takes the object's state and gives the new state, the
    effects performed, and either a value or a raised exception.  State
    changes and effects made before a [raise] persist, as in Python. *)
Section Exec.
Context {St Ev : Type}.

Definition exec (A : Type) : Type := St -> St * list Ev * outcome A.

Definition ret {A} (a : A) : exec A := fun s => (s, [], Ret a).

Definition raise {A} (e : exc) : exec A := fun s => (s, [], Raise e).

Definition bind {A B} (m : exec A) (k : A -> exec B) : exec B :=
  fun s =>
    match m s with
    | (s1, t1, Ret a) =>
        match k a s1 with
        | (s2, t2, o) => (s2, t1 ++ t2, o)
        end
    | (s1, t1, Raise e) => (s1, t1, Raise e)
    end.

Definition gets {A} (f : St -> A) : exec A := fun s => (s, [], Ret (f s)).

Definition modify (f : St -> St) : exec unit := fun s => (f s, [], Ret tt).

Definition emit (ev : Ev) : exec unit := fun s => (s, [ev], Ret tt).

(** An [await] on the outside world: the effect is recorded and the
    await completes with the given outcome. *)
Definition await {A} (ev : Ev) (result : outcome A) : exec A :=
  fun s => (s, [ev], result).

(** A computation that completes with [result]: a pure call that may
    raise, or a pending await (its effect was recorded when it was issued)
    completing. *)
Definition of_outcome {A} (result : outcome A) : exec A :=
  fun s => (s, [], result).

(** [try: body / except ...: handler].  [handlers e] is [Some h] when an
    [except] clause matches [e]; an exception raised by [h] itself
    propagates (sibling clauses of the same [try] do not catch it). *)
Definition try_except {A} (body : exec A) (handlers : exc -> option (exec A))
  : exec A :=
  fun s =>
    match body s with
    | (s1, t1, Ret a) => (s1, t1, Ret a)
    | (s1, t1, Raise e) =>
        match handlers e with
        | Some h =>
            match h s1 with
            | (s2, t2, o) => (s2, t1 ++ t2, o)
            end
        | None => (s1, t1, Raise e)
        end
    end.

(** [except Exception as e: h e] *)
Definition except_Exception {A} (h : exc -> exec A) (e : exc)
  : option (exec A) :=
  if is_Exception e then Some (h e) else None.

(** [for x in xs: body x] over a list that the body does not mutate. *)
Fixpoint for_each {A} (xs : list A) (body : A -> exec unit) : exec unit :=
  match xs with
  | [] => ret tt
  | x :: rest => bind (body x) (fun _ => for_each rest body)
  end.
End Exec.

Arguments exec : clear implicits.

Notation "'let!' x ':=' m 'in' k" := (bind m (fun x => k))
  (at level 10, x pattern, m at level 100, k at level 200).
Notation "m '>>' k" := (bind m (fun _ => k))
  (at level 100, k at level 200, right associativity).

Definition state_of {St Ev A} (r : St * list Ev * outcome A) : St := r.1.1.
Definition trace_of {St Ev A} (r : St * list Ev * outcome A) : list Ev := r.1.2.
Definition result_of {St Ev A} (r : St * list Ev * outcome A) : outcome A := r.2.

(** [m] leaves the component [f] of the state as it found it. *)
Definition keeps {St Ev A B} (f : St -> B) (m : exec St Ev A) : Prop :=
  forall s, f (state_of (m s)) = f s.

(** Whatever [m] raises is an [Exception]. *)
Definition raises_only_errors {St Ev A} (m : exec St Ev A) : Prop :=
  forall s e, result_of (m s) = Raise e -> is_Exception e = true.

(** [m] never raises. *)
Definition returns {St Ev A} (m : exec St Ev A) : Prop :=
  forall s, exists a, result_of (m s) = Ret a.

(** Every run of [m] takes a state to one related to it by [R]. *)
Definition moves {St Ev A} (R : St -> St -> Prop) (m : exec St Ev A) : Prop :=
  forall s, R s (state_of (m s)).

(** No [Exception] leaves [m]: what it raises, [except Exception] would
    not catch. *)
Definition contains_errors {St Ev A} (m : exec St Ev A) : Prop :=
  forall s e, result_of (m s) = Raise e -> is_Exception e = false.

(** Every effect [m] performs satisfies [P]. *)
Definition emits_only {St Ev A} (P : Ev -> Prop) (m : exec St Ev A) : Prop :=
  forall s, Forall P (trace_of (m s)).

(** [m] keeps the invariant [I] of the state and performs only effects
    that satisfy [P]. *)
Definition preserves {St Ev A} (I : St -> Prop) (P : Ev -> Prop)
    (m : exec St Ev A) : Prop :=
  forall s, I s -> I (state_of (m s)) /\ Forall P (trace_of (m s)).

(** ** Python numbers as far as ordering goes

    Timestamps are Python floats (the initial watermark is the int [0]).
    The code only compares them and takes [max], both exact operations, so
    a finite value is represented by the rational it denotes; the two
    infinities and NaN, which JSON decoding can produce, are kept apart. *)
Inductive pyfloat : Type :=
| Fin (q : Q)
| PosInf
| NegInf
| NaN.

(** [a > b]; every comparison with NaN is False. *)
Definition py_gt (a b : pyfloat) : bool :=
  match a, b with
  | NaN, _ | _, NaN => false
  | NegInf, _ => false
  | _, PosInf => false
  | PosInf, _ => true
  | Fin _, NegInf => true
  | Fin x, Fin y => negb (Qle_bool x y)
  end.

(** [max(a, b)]: keeps [a] unless [b > a]. *)
Definition py_max (a b : pyfloat) : pyfloat := if py_gt b a then b else a.

(** * The polling agent: [agents/market_sentiment/agent.py] *)
Module MarketSentiment.

(** [class Message(BaseModel)] *)
Module Message.
Record t : Type := mk {
  from_agent_id : string;
  content : string;
  conversation_id : option string;
  timestamp : pyfloat
}.
End Message.

(** [class ConversationMessage(BaseModel)] *)
Module ConversationMessage.
Record t : Type := mk {
  role : string;
  content : string
}.
End ConversationMessage.

(** One element of the ["messages"] array of a poll response, as pydantic
    sees it when it is unpacked into the [Message] constructor.
    Validation is library code: a record is modelled by what validation
    makes of it, either rejected (a required field missing or ill-typed,
    [ValidationError]) or accepted with the given fields, the [timestamp]
    key being present or not. *)
Inductive raw_record : Type :=
| Accepted (from_agent_id content : string)
           (conversation_id : option string)
           (timestamp : option pyfloat)
| Rejected.

(** A Python list object lives in the heap and is reached through a
    reference; two names bound to the same reference see each other's
    mutations. *)
Definition ref : Type := nat.

Record Agent : Type := mkAgent {
  api_url : string;
  api_key : string;
  (** [Dict[str, List[ConversationMessage]]]: peer to list object *)
  conversation_history : gmap string ref;
  (** the list objects allocated so far *)
  heap : list (list ConversationMessage.t);
  last_message_timestamp : pyfloat;
  _poll_task : option nat;
  _session : option nat
}.

Definition set_conversation_history (f : gmap string ref -> gmap string ref)
    (a : Agent) : Agent :=
  mkAgent (api_url a) (api_key a) (f (conversation_history a)) (heap a)
          (last_message_timestamp a) (_poll_task a) (_session a).

Definition set_heap
    (f : list (list ConversationMessage.t) -> list (list ConversationMessage.t))
    (a : Agent) : Agent :=
  mkAgent (api_url a) (api_key a) (conversation_history a) (f (heap a))
          (last_message_timestamp a) (_poll_task a) (_session a).

Definition set_last_message_timestamp (f : pyfloat -> pyfloat) (a : Agent)
  : Agent :=
  mkAgent (api_url a) (api_key a) (conversation_history a) (heap a)
          (f (last_message_timestamp a)) (_poll_task a) (_session a).

Definition set_poll_task (t : option nat) (a : Agent) : Agent :=
  mkAgent (api_url a) (api_key a) (conversation_history a) (heap a)
          (last_message_timestamp a) t (_session a).

Definition set_session (s : option nat) (a : Agent) : Agent :=
  mkAgent (api_url a) (api_key a) (conversation_history a) (heap a)
          (last_message_timestamp a) (_poll_task a) s.

(** [MarketSentimentAgent.__init__] *)
Definition __init__ (api_key : string) (api_url : string) : Agent :=
  mkAgent api_url api_key ∅ [] (Fin 0) None None.

(** The peer's history as the Conversation Store holds it: the contents
    of the list object the dict maps the peer to (no entry: no turns). *)
Definition stored_history (a : Agent) (peer : string)
  : list ConversationMessage.t :=
  match conversation_history a !! peer with
  | Some l => heap a !!! l
  | None => []
  end.

Inductive log : Type :=
| LStarted
| LFailedStart (e : exc)
| LStopped
| LReceived (m : Message.t)
| LErrorPolling (e : exc)
| LErrorHandling (e : exc)
| LErrorProcessing (e : exc).

Inductive effect : Type :=
| Print (l : log)
| CreateTask
| CancelTask (task : nat)
| CloseSession (session : nat)
| HttpGet (url : string) (since : pyfloat)
| HttpPost (url : string) (toAgentId content : string)
           (conversationId : option string)
| ChatCompletion (messages : list (string * string))
| Sleep (seconds : Q).

Abbreviation M := (exec Agent effect).

(** [start]: [session] and [task] are the identities of the objects
    created. *)
Definition start (session task : nat) : M unit :=
  try_except
    (modify (set_session (Some session)) >>
     emit CreateTask >>
     modify (set_poll_task (Some task)) >>
     emit (Print LStarted))
    (except_Exception (fun e => emit (Print (LFailedStart e)) >> raise e)).

(** [stop]: [cl] is what closing the HTTP session completes with. *)
Definition stop (cl : outcome unit) : M unit :=
  let! t := gets _poll_task in
  (match t with
   | Some t => emit (CancelTask t) >> modify (set_poll_task None)
   | None => ret tt
   end) >>
  let! s := gets _session in
  (match s with
   | Some s => await (CloseSession s) cl >> modify (set_session None)
   | None => ret tt
   end) >>
  emit (Print LStopped).

(** *** Heap operations on list objects *)

(** [[]] or a slice: a fresh list object *)
Definition new_list (xs : list ConversationMessage.t) : M ref :=
  let! l := gets (fun a => length (heap a)) in
  modify (set_heap (fun h => h ++ [xs])) >>
  ret l.

(** the current contents of a list object; references held by the agent
    come from [new_list], so the default is not reached *)
Definition read_list (l : ref) : M (list ConversationMessage.t) :=
  gets (fun a => heap a !!! l).

(** [l.extend(xs)]: in-place mutation of the list object *)
Definition list_extend (l : ref) (xs : list ConversationMessage.t) : M unit :=
  modify (set_heap (alter (fun old => old ++ xs) l)).

(** [d[k]] *)
Definition dict_getitem (k : string) : M ref :=
  let! d := gets conversation_history in
  match d !! k with
  | Some l => ret l
  | None => raise KeyError
  end.

Definition system_prompt : string :=
"You are a Market Sentiment Analysis agent in the OpenPond P2P network.
Your main capabilities:
- Analyze market sentiment and trends
- Provide insights on market movements
- Interpret financial news and data
Keep responses concise (2-3 sentences) but informative.
Your main traits:
- Professional and analytical
- Data-driven in your responses
- Focus on market sentiment and trends
- Expert in financial markets and crypto".

(** [x or default] on an optional string: None and the empty string are falsy *)
Definition str_or (x : option string) (default : string) : string :=
  match x with
  | Some s => if String.eqb s "" then default else s
  | None => default
  end.

(** A completion, of which the code reads the [message.content] of each
    element of [choices]. *)
Definition completion : Type := list (option string).

(** [_process_message]: [llm] is what the expression
    [await self.openai_client.chat.completions.create(...)] completes
    with, whatever client the agent holds; [awaited] below gives it for
    the client [__init__] builds.  The half-second sleep before it is an
    effect that completes: the runs described are those that get to the
    call. *)
Definition _process_message (message : Message.t) (llm : outcome completion)
  : M string :=
  try_except
    (let peer := Message.from_agent_id message in
     let! d := gets conversation_history in
     (match d !! peer with
      | None =>
          let! l := new_list [] in
          modify (set_conversation_history (insert peer l))
      | Some _ => ret tt
      end) >>
     let! history := dict_getitem peer in
     let! turns := read_list history in
     let messages :=
       ("system", system_prompt)
       :: map (fun m => (ConversationMessage.role m,
                         ConversationMessage.content m)) turns
       ++ [("user", Message.content message)] in
     emit (Sleep (1 # 2)) >>
     let! choices := await (ChatCompletion messages) llm in
     let! first :=
       match choices with
       | c :: _ => ret c
       | [] => raise IndexError
       end in
     let response := str_or first "Sorry, I couldn't process that request." in
     list_extend history
       [ConversationMessage.mk "user" (Message.content message);
        ConversationMessage.mk "assistant" response] >>
     (* if len(history) > 10: history = history[2:]
        the slice is a new list object and only the local name is rebound *)
     let! turns := read_list history in
     let! history :=
       (if (10 <? length turns)%nat then new_list (drop 2 turns) else ret history) in
     ret response)
    (except_Exception (fun e =>
       emit (Print (LErrorProcessing e)) >>
       ret "Sorry, I encountered an error processing your message.")).

(** What the two awaits made while one message is dispatched complete
    with: the language-model call and the [POST /messages] request
    (including reading its JSON body). *)
Record dispatch_env : Type := mkEnv {
  llm_result : outcome completion;
  post_result : outcome unit
}.

(** [self._session.post(...)]: attribute access on [None] raises *)
Definition session_post (toAgentId content : string)
    (conversationId : option string) (result : outcome unit) : M unit :=
  let! s := gets _session in
  match s with
  | None => raise AttributeError
  | Some _ =>
      let! url := gets api_url in
      await (HttpPost (String.append url "/messages")
                      toAgentId content conversationId) result
  end.

(** [handle_message] *)
Definition handle_message (message : Message.t) (env : dispatch_env) : M unit :=
  try_except
    (emit (Print (LReceived message)) >>
     let! response := _process_message message (llm_result env) in
     if String.eqb response "" then ret tt
     else session_post (Message.from_agent_id message) response
                       (Message.conversation_id message) (post_result env))
    (except_Exception (fun e => emit (Print (LErrorHandling e)))).

(** How [await asyncio.sleep(5)] ends: the five seconds elapse, or the
    task is cancelled while it waits ([stop] cancels the poll task),
    which raises [asyncio.CancelledError] there. *)
Inductive slept : Type :=
| Elapsed
| Cancelled.

Definition sleep_result (nap : slept) : outcome unit :=
  match nap with
  | Elapsed => Ret tt
  | Cancelled => Raise (NonError "CancelledError")
  end.

(** One record of a poll response together with the outcomes of the
    awaits its dispatch will make. *)
Record item : Type := mkItem {
  raw : raw_record;
  env : dispatch_env
}.

Section Imported.
(** [timestamp: float = time.time()] is evaluated once, when the class
    body runs at import: [import_time] is the clock reading then. *)
Variable import_time : pyfloat.

(** [Message(...)] on the keyword arguments of one record *)
Definition new_Message (r : raw_record) : outcome Message.t :=
  match r with
  | Accepted from content conv ts =>
      Ret (Message.mk from content conv (default import_time ts))
  | Rejected => Raise ValidationError
  end.

(** The body of [for message in messages]. *)
Definition poll_item (it : item) : M unit :=
  let! msg := of_outcome (new_Message (raw it)) in
  handle_message msg (env it) >>
  modify (set_last_message_timestamp
            (fun w => py_max w (Message.timestamp msg))).

(** The body of the [while True] loop of [_start_polling] up to the
    sleep: one poll cycle.  [resp] is what the GET, reading its JSON
    body and taking its ["messages"] key complete with.  ([HttpGet] is
    the call [self._session.get(...)]; with a [since] that is an infinity
    or NaN the call raises [ValueError] before anything is sent, and
    [resp] is then that error.) *)
Definition poll_cycle (resp : outcome (list item)) : M unit :=
  try_except
    (let! s := gets _session in
     let! messages :=
       match s with
       | None => raise AttributeError
       | Some _ =>
           let! url := gets api_url in
           let! since := gets last_message_timestamp in
           await (HttpGet (String.append url "/messages") since) resp
       end in
     for_each messages poll_item)
    (except_Exception (fun e => emit (Print (LErrorPolling e)))).

(** [_start_polling], run for as many cycles as are supplied: for each
    one the poll response and the way the sleep after it ends.  [Ret tt]
    means the loop is still running, at the top of its next cycle; the
    [while True] loop only ends by an exception that [except Exception]
    does not catch, raised in the cycle or by the sleep, which is outside
    the [try]. *)
Fixpoint _start_polling (cycles : list (outcome (list item) * slept))
  : M unit :=
  match cycles with
  | [] => ret tt
  | (resp, nap) :: rest =>
      poll_cycle resp >>
      await (Sleep 5) (sleep_result nap) >>
      _start_polling rest
  end.
End Imported.

(** *** Vocabulary of the statements below *)

(** an outcome that [except Exception] sees as a value or catches *)
Definition catchable {A} (o : outcome A) : bool :=
  match o with
  | Ret _ => true
  | Raise e => is_Exception e
  end.

(** neither await of the dispatch is cut short by a [BaseException] *)
Definition dispatch_completes (e : dispatch_env) : bool :=
  catchable (llm_result e) && catchable (post_result e).

(** the record parses and its dispatch runs to the end *)
Definition item_ok (it : item) : bool :=
  match raw it with
  | Accepted _ _ _ _ => dispatch_completes (env it)
  | Rejected => false
  end.

(** the timestamps of the messages built from the accepted records *)
Definition timestamps (import_time : pyfloat) (items : list item)
  : list pyfloat :=
  flat_map (fun it =>
              match new_Message import_time (raw it) with
              | Ret m => [Message.timestamp m]
              | Raise _ => []
              end) items.

(** each timestamp greater than the one before it *)
Fixpoint strictly_increasing (ts : list pyfloat) : bool :=
  match ts with
  | [] => true
  | t :: rest =>
      match rest with
      | [] => true
      | t' :: _ => py_gt t' t && strictly_increasing rest
      end
  end.

(** the [try] body of [_process_message] raises an [Exception]: the
    language-model call raises one, or the completion has no choices *)
Definition llm_fails (llm : outcome completion) : bool :=
  match llm with
  | Raise e => is_Exception e
  | Ret [] => true
  | Ret (_ :: _) => false
  end.

(** the GET a poll cycle issues *)
Definition get_request (a : Agent) : effect :=
  HttpGet (String.append (api_url a) "/messages") (last_message_timestamp a).

(** a started agent that has not polled yet *)
Definition started : Agent :=
  set_session (Some 0) (set_poll_task (Some 0) (__init__ "key" "http://localhost:3000")).

(** the agent once the peer has an entry in the dict (the first two
    statements of [_process_message]) *)
Definition lazy_init (peer : string) (a : Agent) : Agent :=
  match conversation_history a !! peer with
  | Some _ => a
  | None =>
      set_conversation_history (insert peer (length (heap a)))
        (set_heap (fun h => h ++ [[]]) a)
  end.

(** the [messages] argument of the language-model call *)
Definition prompt (a : Agent) (message : Message.t) : list (string * string) :=
  ("system", system_prompt)
  :: map (fun m => (ConversationMessage.role m, ConversationMessage.content m))
         (stored_history a (Message.from_agent_id message))
  ++ [("user", Message.content message)].

(** the user turn and the assistant turn appended on success *)
Definition turn_pair (message : Message.t) (c : option string)
  : list ConversationMessage.t :=
  [ConversationMessage.mk "user" (Message.content message);
   ConversationMessage.mk "assistant"
     (str_or c "Sorry, I couldn't process that request.")].

(** [history.extend(turns)] on the peer's list object *)
Definition record_turns (peer : string) (turns : list ConversationMessage.t)
    (a : Agent) : Agent :=
  match conversation_history a !! peer with
  | Some l => set_heap (alter (fun old => old ++ turns) l) a
  | None => a
  end.

(** [if len(history) > 10: history = history[2:]]: all that remains of it
    in the agent is the new list object holding the slice *)
Definition slice_copy (peer : string) (a : Agent) : Agent :=
  let turns := stored_history a peer in
  if (10 <? length turns)%nat then set_heap (fun h => h ++ [drop 2 turns]) a
  else a.

(** every reference in the dict points into the heap *)
Definition wf (a : Agent) : Prop :=
  forall p l, conversation_history a !! p = Some l -> l < length (heap a).

(** *** The client the agent builds

    [self.openai_client = openai.Client(api_key=...)] is the synchronous
    client: [chat.completions.create(...)] performs the request itself and
    returns a completion object, or raises.  The object it returns is not
    awaitable, so the [await] applied to it in [_process_message] raises
    [TypeError].  [awaited call] is what that [await] expression completes
    with when the synchronous call completes with [call]: never a
    completion. *)
Definition awaited (call : outcome completion) : outcome completion :=
  match call with
  | Ret _ => Raise (OtherError "TypeError")
  | Raise e => Raise e
  end.

(** a well-formed record with the given timestamp, the call of the client
    returning and the reply being posted without error *)
Definition item_at (t : Q) : item :=
  mkItem (Accepted "p1" "hi" None (Some (Fin t)))
         (mkEnv (awaited (Ret [Some "ok"])) (Ret tt)).

(** a record that fails validation *)
Definition rejected_item : item :=
  mkItem Rejected (mkEnv (awaited (Ret [Some "ok"])) (Ret tt)).

(** the watermark [w'] is [w] or greater than [w] *)
Definition advanced (w w' : pyfloat) : Prop :=
  w' = w \/ py_gt w' w = true.

Definition watermark_advances (a a' : Agent) : Prop :=
  advanced (last_message_timestamp a) (last_message_timestamp a').

(** the conversation store is sound: every reference in the dict points
    into the heap, and no two peers share a list object *)
Definition store_ok (a : Agent) : Prop :=
  wf a /\
  forall p q l,
    conversation_history a !! p = Some l ->
    conversation_history a !! q = Some l -> p = q.

(** a step that keeps the store sound *)
Definition store_sound (a a' : Agent) : Prop :=
  store_ok a -> store_ok a'.

(** a step that keeps the store sound and the history of [q] as it is *)
Definition store_kept (q : string) (a a' : Agent) : Prop :=
  store_ok a -> store_ok a' /\ stored_history a' q = stored_history a q.

(** what [except Exception] makes of a poll response and of the awaits of
    its dispatches: nothing in them is a [BaseException] *)
Definition cycle_catchable (resp : outcome (list item)) : bool :=
  match resp with
  | Ret items => forallb (fun it => dispatch_completes (env it)) items
  | Raise e => is_Exception e
  end.

(** the sleep between two poll cycles *)
Definition is_cycle_sleep (e : effect) : bool :=
  match e with
  | Sleep q => Qeq_bool q 5
  | _ => false
  end.

(** a request to the message endpoint *)
Definition is_request (e : effect) : bool :=
  match e with
  | HttpGet _ _ | HttpPost _ _ _ _ => true
  | _ => false
  end.

(** the peer a record comes from, when it parses *)
Definition sender (it : item) : option string :=
  match raw it with
  | Accepted from _ _ _ => Some from
  | Rejected => None
  end.

(** the text [_process_message] returns when nothing but an [Exception]
    gets in its way *)
Definition reply_to (llm : outcome completion) : string :=
  match llm with
  | Ret (c :: _) => str_or c "Sorry, I couldn't process that request."
  | _ => "Sorry, I encountered an error processing your message."
  end.

(** the POST that answers [message] with [text] *)
Definition answer (a : Agent) (message : Message.t) (text : string) : effect :=
  HttpPost (String.append (api_url a) "/messages")
           (Message.from_agent_id message) text (Message.conversation_id message).

(** a call of the language model *)
Definition is_completion (e : effect) : bool :=
  match e with
  | ChatCompletion _ => true
  | _ => false
  end.

(** a poll request *)
Definition is_get (e : effect) : bool :=
  match e with
  | HttpGet _ _ => true
  | _ => false
  end.

(** the log line [handle_message] opens with *)
Definition is_received (e : effect) : bool :=
  match e with
  | Print (LReceived _) => true
  | _ => false
  end.

(** the messages of a batch that reach [handle_message]: those of the
    records before the first one that is rejected, or whose dispatch a
    [BaseException] cuts short (that one included) *)
Fixpoint dispatched (import_time : pyfloat) (items : list item)
  : list Message.t :=
  match items with
  | [] => []
  | it :: rest =>
      match new_Message import_time (raw it) with
      | Raise _ => []
      | Ret m =>
          m :: (if dispatch_completes (env it)
                then dispatched import_time rest else [])
      end
  end.

(** no record of the poll response comes from [q] *)
Definition silent (q : string) (resp : outcome (list item)) : Prop :=
  match resp with
  | Ret items => Forall (fun it => sender it <> Some q) items
  | Raise _ => True
  end.

(** the record as it is dispatched by the agent: [llm_result] being what
    the synchronous call of the client completes with, the await applied
    to it completes with [awaited] of that *)
Definition through_client (it : item) : item :=
  mkItem (raw it)
         (mkEnv (awaited (llm_result (env it))) (post_result (env it))).

Definition polled_through_client (c : outcome (list item) * slept)
  : outcome (list item) * slept :=
  (match c.1 with
   | Ret items => Ret (map through_client items)
   | Raise e => Raise e
   end, c.2).

(** the exception the [except] clause of [_process_message] then sees *)
Definition client_error (call : outcome completion) : exc :=
  match call with
  | Ret _ => OtherError "TypeError"
  | Raise e => e
  end.

(** a step that leaves every stored history as it is *)
Definition history_kept (a a' : Agent) : Prop :=
  forall q, stored_history a' q = stored_history a q.

(** the agent after [_process_message] has run on each message in turn,
    the synchronous call of the client completing as given for each *)
Definition after_messages (calls : list (Message.t * outcome completion))
    (a : Agent) : Agent :=
  fold_left (fun a mc => state_of (_process_message mc.1 (awaited mc.2) a))
            calls a.

(** *** Time

    The code reads the clock once, in the class body of [Message]; after
    that, time passes in the sleeps of the trace.  [receipts n t] lists
    the messages handed to [handle_message] in the trace [t] (a message
    is built just before), each with the number of 5-second sleeps of the
    polling loop that were over by then, counted from [n], and the
    timestamp it carries. *)
Fixpoint receipts (n : nat) (t : list effect) : list (nat * pyfloat) :=
  match t with
  | [] => []
  | Print (LReceived m) :: rest => (n, Message.timestamp m) :: receipts n rest
  | e :: rest => receipts (if is_cycle_sleep e then S n else n) rest
  end.

(** the cycles the loop gets to when nothing but a cancelled sleep can
    end it: those up to the first cancelled sleep, that one included *)
Fixpoint until_cancelled (cycles : list (outcome (list item) * slept))
  : list (outcome (list item) * slept) :=
  match cycles with
  | [] => []
  | (resp, Elapsed) :: rest => (resp, Elapsed) :: until_cancelled rest
  | (resp, Cancelled) :: _ => [(resp, Cancelled)]
  end.

(** what the loop completes with then: still running, or cancelled *)
Fixpoint cancellation (cycles : list (outcome (list item) * slept))
  : outcome unit :=
  match cycles with
  | [] => Ret tt
  | (_, Elapsed) :: rest => cancellation rest
  | (_, Cancelled) :: _ => Raise (NonError "CancelledError")
  end.

(** each record of the batches with the position of its batch, counted
    from [n], and the timestamp [t] *)
Fixpoint stamped (n : nat) (t : pyfloat) (batches : list (list item))
  : list (nat * pyfloat) :=
  match batches with
  | [] => []
  | items :: rest => map (fun _ => (n, t)) items ++ stamped (S n) t rest
  end.

(** cycles whose sleeps all run their five seconds *)
Definition uncancelled (resps : list (outcome (list item)))
  : list (outcome (list item) * slept) :=
  map (fun resp => (resp, Elapsed)) resps.

(** a record without a [timestamp] key that parses and whose dispatch runs
    to the end *)
Definition undated (it : item) : bool :=
  match raw it with
  | Accepted _ _ _ None => dispatch_completes (env it)
  | _ => false
  end.

(** a float that is neither an infinity nor NaN *)
Definition is_finite (x : pyfloat) : bool :=
  match x with
  | Fin _ => true
  | _ => false
  end.
End MarketSentiment.

(** * The streaming agent: [agents/base_example/node.py] *)
Module Node.

(** [class Message(BaseModel)] *)
Module Message.
Record t : Type := mk {
  from_agent_id : string;
  content : string;
  conversation_id : option string
}.
End Message.

(** a websocket connection object, by identity *)
Definition ws : Type := nat.

(** a registered callable, by identity ([==] on functions) *)
Definition handler : Type := nat.

Record NodeAgent : Type := mkNodeAgent {
  node_url : string;
  agent_id : option string;
  _websocket : option ws;
  _message_handlers : list handler;
  _running : bool
}.

Definition set_websocket (w : option ws) (a : NodeAgent) : NodeAgent :=
  mkNodeAgent (node_url a) (agent_id a) w (_message_handlers a) (_running a).

Definition set_message_handlers (hs : list handler) (a : NodeAgent)
  : NodeAgent :=
  mkNodeAgent (node_url a) (agent_id a) (_websocket a) hs (_running a).

Definition set_running (b : bool) (a : NodeAgent) : NodeAgent :=
  mkNodeAgent (node_url a) (agent_id a) (_websocket a) (_message_handlers a) b.

(** [NodeAgent.__init__] *)
Definition __init__ (node_url : string) (agent_id : option string)
  : NodeAgent :=
  mkNodeAgent node_url agent_id None [] false.

(** frames written to the websocket *)
Inductive frame_out : Type :=
| Register (agentId : string)
| Chat (toAgentId content : string) (conversationId : option string).

(** What the body of the pump's [try] makes of a received text frame:
    a chat message, valid JSON of another kind, or an exception raised
    by [json.loads], by the lookups or by [Message] validation. *)
Inductive frame_in : Type :=
| FrameMessage (m : Message.t)
| FrameOther
| FrameBad (e : exc).

Inductive log : Type :=
| LStarted
| LFailedStart (e : exc)
| LStopped
| LErrorConnecting (e : exc)
| LConnectionClosed
| LErrorWebsocket (e : exc)
| LReceived (m : Message.t)
| LErrorHandling (e : exc)
| LErrorSending (e : exc).

Inductive effect : Type :=
| Print (l : log)
| WsConnect (url : string)
| WsSend (w : ws) (f : frame_out)
| WsRecv (w : ws)
| WsClose (w : ws)
| Sleep (seconds : Q)
| CreateTask
| Call (h : handler) (m : Message.t).

Abbreviation M := (exec NodeAgent effect).

(** [_connect]: [c] is what [websockets.connect] completes with and [s]
    what sending the registration frame completes with. *)
Definition _connect (c : outcome ws) (s : outcome unit) : M unit :=
  try_except
    (let! url := gets node_url in
     let! w := await (WsConnect url) c in
     modify (set_websocket (Some w)) >>
     let! aid := gets agent_id in
     (match aid with
      | Some id =>
          if String.eqb id "" then ret tt
          else await (WsSend w (Register id)) s
      | None => ret tt
      end) >>
     emit CreateTask)
    (except_Exception (fun e =>
       emit (Print (LErrorConnecting e)) >> raise e)).

(** [start] *)
Definition start (c : outcome ws) (s : outcome unit) : M unit :=
  try_except
    (modify (set_running true) >>
     _connect c s >>
     emit (Print LStarted))
    (except_Exception (fun e =>
       emit (Print (LFailedStart e)) >> raise e)).

(** [stop]: [cl] is what closing the websocket completes with. *)
Definition stop (cl : outcome unit) : M unit :=
  modify (set_running false) >>
  let! w := gets _websocket in
  (match w with
   | Some w =>
       await (WsClose w) cl >>
       modify (set_websocket None)
   | None => ret tt
   end) >>
  emit (Print LStopped).

(** [handle_message] is a coroutine: it is suspended while a handler is
    awaited, and what the handler or another task does to the agent
    meanwhile (calling a token, [on_message], [stop]) is done when it
    resumes.  The [for] loop iterates the list object itself: the
    iterator holds a position and reads the list as it is at each step.

    [next_handler i message] is the loop at position [i], up to the await
    of the handler found there ([Some i]: suspended at it) or to the end
    of the list ([None]: the loop is over). *)
Definition next_handler (i : nat) (message : Message.t) : M (option nat) :=
  let! hs := gets _message_handlers in
  match hs !! i with
  | Some h => emit (Call h message) >> ret (Some i)
  | None => ret None
  end.

(** the [except Exception] clause of [handle_message] *)
Definition handler_error : exc -> option (M (option nat)) :=
  except_Exception (fun e => emit (Print (LErrorHandling e)) >> ret None).

(** [handle_message] from its first statement *)
Definition handle_message_enter (message : Message.t) : M (option nat) :=
  try_except
    (emit (Print (LReceived message)) >> next_handler 0 message)
    handler_error.

(** [handle_message] from the await of the handler at position [i], which
    completes with [o] *)
Definition handle_message_resume (i : nat) (message : Message.t)
    (o : outcome unit) : M (option nat) :=
  try_except
    (of_outcome o >> next_handler (S i) message)
    handler_error.

(** [handle_message] from its first statement to its return when the
    agent is left alone while the handlers are awaited: the list iterated
    is then the list as it is at the start.  [run h] is what awaiting
    [h(message)] completes with. *)
Definition handle_message (message : Message.t)
    (run : handler -> outcome unit) : M unit :=
  try_except
    (emit (Print (LReceived message)) >>
     let! handlers := gets _message_handlers in
     for_each handlers (fun h => await (Call h message) (run h)))
    (except_Exception (fun e => emit (Print (LErrorHandling e)))).

(** [send_message] *)
Definition send_message (to_agent_id content : string)
    (conversation_id : option string) (s : outcome unit) : M unit :=
  let! w := gets _websocket in
  match w with
  | None => raise (RuntimeError "Not connected to node")
  | Some w =>
      try_except
        (await (WsSend w (Chat to_agent_id content conversation_id)) s)
        (except_Exception (fun e =>
           emit (Print (LErrorSending e)) >> raise e))
  end.

(** [list.remove(x)]: drops the first element equal to [x]; [None]
    stands for the [ValueError] raised when there is none. *)
Fixpoint list_remove (x : handler) (l : list handler) : option (list handler) :=
  match l with
  | [] => None
  | y :: rest =>
      if Nat.eqb y x then Some rest
      else option_map (cons y) (list_remove x rest)
  end.

(** The value [on_message] returns:
    [lambda: self._message_handlers.remove(handler)], a closure over the
    agent and the handler. *)
Inductive token : Type :=
| Unregister (h : handler).

(** [on_message] *)
Definition on_message (h : handler) : M token :=
  modify (fun a => set_message_handlers (_message_handlers a ++ [h]) a) >>
  ret (Unregister h).

(** calling the token *)
Definition call_token (t : token) : M unit :=
  match t with
  | Unregister h =>
      let! hs := gets _message_handlers in
      match list_remove h hs with
      | Some hs' => modify (set_message_handlers hs')
      | None => raise ValueError
      end
  end.

(** *** The pump coroutine [_handle_messages]

    The coroutine is suspended at one of its awaits; other tasks (a
    caller of [stop], say) run in between.  [pump_pc] is where it is
    suspended. *)
Inductive pump_pc : Type :=
| NoTask                       (* not created yet *)
| AtRecv (w : ws)              (* await self._websocket.recv() *)
| AtHandler (i : nat) (m : Message.t)
                               (* handle_message(m): await handler(m), the
                                  handler found at position i of the list *)
| AtSleep5                     (* except ConnectionClosed: await asyncio.sleep(5) *)
| AtConnect                    (* except ConnectionClosed: await self._connect() *)
| AtSleep1                     (* except Exception: await asyncio.sleep(1) *)
| Finished (o : outcome unit). (* returned, or an exception left the coroutine *)

(** What the pending await completes with. *)
Inductive wake : Type :=
| WRecv (r : outcome frame_in)
| WHandler (o : outcome unit)
| WSleep
| WConnect (c : outcome ws) (s : outcome unit).

(** [while self._running and self._websocket:] then the first line of
    the body, up to its await *)
Definition loop_head : M pump_pc :=
  let! r := gets _running in
  let! w := gets _websocket in
  match r, w with
  | true, Some w => emit (WsRecv w) >> ret (AtRecv w)
  | _, _ => ret (Finished (Ret tt))
  end.

(** The two [except] clauses of the loop body, each up to its first
    await; [Some pc] is the await the clause is suspended at. *)
Definition pump_handlers (e : exc) : option (M (option pump_pc)) :=
  if is_ConnectionClosed e then
    Some (emit (Print LConnectionClosed) >>
          emit (Sleep 5) >>
          ret (Some AtSleep5))
  else if is_Exception e then
    Some (emit (Print (LErrorWebsocket e)) >>
          emit (Sleep 1) >>
          ret (Some AtSleep1))
  else None.

(** the pump suspended in [handle_message(msg)], or past it *)
Definition dispatching (msg : Message.t) (d : option nat) : option pump_pc :=
  match d with
  | Some i => Some (AtHandler i msg)
  | None => None
  end.

(** The loop body, entered or resumed by [body], up to the next await:
    the one [body] or an [except] clause is suspended at, or else the one
    of the next iteration. *)
Definition loop_body (body : M (option pump_pc)) : M pump_pc :=
  let! suspended := try_except body pump_handlers in
  match suspended with
  | Some pc' => ret pc'
  | None => loop_head
  end.

(** [_handle_messages], run from the await it is suspended at, which
    completes with [w], to its next await.  A raised outcome is an
    exception that leaves the coroutine. *)
Definition _handle_messages (pc : pump_pc) (w : wake) : M pump_pc :=
  match pc, w with
  | AtRecv _, WRecv r =>
      loop_body
        (let! fr := of_outcome r in
         match fr with
         | FrameMessage msg =>
             let! d := handle_message_enter msg in
             ret (dispatching msg d)
         | FrameOther => ret None
         | FrameBad e => raise e
         end)
  | AtHandler i msg, WHandler o =>
      loop_body
        (let! d := handle_message_resume i msg o in
         ret (dispatching msg d))
  | AtSleep5, WSleep => ret AtConnect
  | AtConnect, WConnect c s => _connect c s >> loop_head
  | AtSleep1, WSleep => loop_head
  | _, _ => ret pc
  end.

(** *** The agent with its pump task

    [trace] is everything done so far.  One pump task is followed; every
    [CreateTask] is logged, and the tasks created by later [_connect]
    calls run this same code.  The events are the calls of the agent's
    methods, by the application or by a handler that is being awaited,
    and the completions of the pump's awaits.  A call is one step, the
    outcomes of the awaits it makes being given with it: [CallStop cl] is
    [stop] with the close of the websocket completing with [cl] before
    the pump is next resumed. *)
Record System : Type := mkSystem {
  agent : NodeAgent;
  pump : pump_pc;
  trace : list effect
}.

Inductive event : Type :=
| CallStart (c : outcome ws) (s : outcome unit)
| CallStop (cl : outcome unit)
| CallOnMessage (h : handler)
| CallToken (t : token)
| CallSend (to_agent_id content : string) (conversation_id : option string)
           (s : outcome unit)
| PumpWake (w : wake).

(** a call of a method that does not create the pump: what it returns or
    raises goes to its caller *)
Definition call {A} (m : M A) (sys : System) : System :=
  match m (agent sys) with
  | (a, t, _) => mkSystem a (pump sys) (trace sys ++ t)
  end.

Definition step (sys : System) (ev : event) : System :=
  match ev with
  | CallStart c s =>
      match start c s (agent sys) with
      | (a, t, Ret _) =>
          match pump sys with
          | NoTask =>
              (* the task created by _connect runs to its first await *)
              match loop_head a with
              | (a', t', Ret pc) => mkSystem a' pc (trace sys ++ t ++ t')
              | (a', t', Raise e) =>
                  mkSystem a' (Finished (Raise e)) (trace sys ++ t ++ t')
              end
          | pc => mkSystem a pc (trace sys ++ t)
          end
      | (a, t, Raise _) => mkSystem a (pump sys) (trace sys ++ t)
      end
  | CallStop cl =>
      match stop cl (agent sys) with
      | (a, t, _) => mkSystem a (pump sys) (trace sys ++ t)
      end
  | CallOnMessage h => call (on_message h) sys
  | CallToken t => call (call_token t) sys
  | CallSend to_agent_id content conversation_id s =>
      call (send_message to_agent_id content conversation_id s) sys
  | PumpWake w =>
      match _handle_messages (pump sys) w (agent sys) with
      | (a, t, Ret pc) => mkSystem a pc (trace sys ++ t)
      | (a, t, Raise e) => mkSystem a (Finished (Raise e)) (trace sys ++ t)
      end
  end.

Definition run (sys : System) (evs : list event) : System :=
  fold_left step evs sys.

(** a [websockets.connect] call in the trace *)
Definition is_connect (e : effect) : bool :=
  match e with
  | WsConnect _ => true
  | _ => false
  end.

Definition connect_attempts (t : list effect) : nat :=
  length (List.filter is_connect t).

(** *** Scenarios used in the statements below *)

(** handler [1] always raises, every other handler returns *)
Definition first_raises : handler -> outcome unit :=
  fun h => if Nat.eqb h 1 then Raise (OtherError "ZeroDivisionError") else Ret tt.

(** an agent on which handler [1], then handler [2] were registered *)
Definition two_handlers : NodeAgent :=
  state_of ((on_message 1 >> on_message 2) (__init__ "ws://localhost:8080" None)).

Definition hello : Message.t := Message.mk "peer" "hello" None.

(** a handler being awaited *)
Definition is_call (e : effect) : bool :=
  match e with
  | Call _ _ => true
  | _ => false
  end.

(** the handlers a dispatch awaits: those up to the first one that raises,
    that one included *)
Fixpoint called (run : handler -> outcome unit) (hs : list handler)
  : list handler :=
  match hs with
  | [] => []
  | h :: rest =>
      h :: match run h with
           | Ret _ => called run rest
           | Raise _ => []
           end
  end.

(** [on_message] for each handler of a list, in order *)
Definition register_all (hs : list handler) : M unit :=
  for_each hs (fun h => on_message h >> ret tt).

(** the identifier [_connect] registers with: [if self.agent_id] *)
Definition registration (a : NodeAgent) : list frame_out :=
  match agent_id a with
  | Some id => if String.eqb id "" then [] else [Register id]
  | None => []
  end.

(** a write on a websocket *)
Definition is_send (e : effect) : bool :=
  match e with
  | WsSend _ _ => true
  | _ => false
  end.

(** a started agent: connected on websocket [1], registered, its pump
    waiting in [recv] *)
Definition connected : System :=
  run (mkSystem (__init__ "ws://localhost:8080" (Some "agent-1")) NoTask [])
      [CallStart (Ret 1) (Ret tt)].

(** where the loop guard takes the pump: into [recv] on the agent's
    websocket while the agent is running and has one, to its end
    otherwise *)
Definition at_guard (a : NodeAgent) : pump_pc :=
  match _running a, _websocket a with
  | true, Some w => AtRecv w
  | _, _ => Finished (Ret tt)
  end.

(** what it does there *)
Definition guard_trace (a : NodeAgent) : list effect :=
  match _running a, _websocket a with
  | true, Some w => [WsRecv w]
  | _, _ => []
  end.

(** the completions of the handlers a dispatch awaits when the agent is
    left alone meanwhile *)
Definition completions (run : handler -> outcome unit) (hs : list handler)
  : list event :=
  map (fun h => PumpWake (WHandler (run h))) (called run hs).

(** no call of handler [h] *)
Definition not_call (h : handler) (e : effect) : Prop :=
  forall m, e <> Call h m.

(** handler [h] is not registered *)
Definition unregistered (h : handler) (a : NodeAgent) : Prop :=
  ~ In h (_message_handlers a).

(** the connected agent with handlers [1], [2], [3] registered in that
    order has received [hello]; handler [1], being awaited, calls its
    token and returns *)
Definition one_shot_dispatch : System :=
  run connected
      [CallOnMessage 1; CallOnMessage 2; CallOnMessage 3;
       PumpWake (WRecv (Ret (FrameMessage hello)));
       CallToken (Unregister 1);
       PumpWake (WHandler (Ret tt))].
End Node.

(** * Facts about the execution monad *)
Section ExecFacts.
Context {St Ev : Type}.
Implicit Types s : St.

Lemma run_bind {A B} (m : exec St Ev A) (k : A -> exec St Ev B) s :
  bind m k s =
  match result_of (m s) with
  | Ret a =>
      (state_of (k a (state_of (m s))),
       trace_of (m s) ++ trace_of (k a (state_of (m s))),
       result_of (k a (state_of (m s))))
  | Raise e => (state_of (m s), trace_of (m s), Raise e)
  end.
Proof.
  unfold bind, state_of, trace_of, result_of.
  destruct (m s) as [[s1 t1] [a|e]]; simpl; [|reflexivity].
  destruct (k a s1) as [[s2 t2] o]; reflexivity.
Qed.

Lemma run_try_except {A} (body : exec St Ev A) handlers s :
  try_except body handlers s =
  match result_of (body s) with
  | Ret a => body s
  | Raise e =>
      match handlers e with
      | Some h =>
          (state_of (h (state_of (body s))),
           trace_of (body s) ++ trace_of (h (state_of (body s))),
           result_of (h (state_of (body s))))
      | None => body s
      end
  end.
Proof.
  unfold try_except, state_of, trace_of, result_of.
  destruct (body s) as [[s1 t1] [a|e]]; simpl; [reflexivity|].
  destruct (handlers e) as [h|]; [|reflexivity].
  destruct (h s1) as [[s2 t2] o]; reflexivity.
Qed.

Lemma triple_eta {A} (r : St * list Ev * outcome A) :
  r = (state_of r, trace_of r, result_of r).
Proof. destruct r as [[? ?] ?]; reflexivity. Qed.

(** ** Frame rules: a component of the state is left alone *)

Lemma keeps_ret {A B} (f : St -> B) (a : A) : keeps f (ret (Ev:=Ev) a).
Proof. intros s; reflexivity. Qed.

Lemma keeps_raise {A B} (f : St -> B) e : keeps f (raise (Ev:=Ev) (A:=A) e).
Proof. intros s; reflexivity. Qed.

Lemma keeps_gets {A B} (f : St -> B) (g : St -> A) : keeps f (gets (Ev:=Ev) g).
Proof. intros s; reflexivity. Qed.

Lemma keeps_emit {B} (f : St -> B) (ev : Ev) : keeps f (emit ev).
Proof. intros s; reflexivity. Qed.

Lemma keeps_await {A B} (f : St -> B) (ev : Ev) (o : outcome A) :
  keeps f (await ev o).
Proof. intros s; reflexivity. Qed.

Lemma keeps_of_outcome {A B} (f : St -> B) (o : outcome A) :
  keeps f (of_outcome (Ev:=Ev) o).
Proof. intros s; reflexivity. Qed.

Lemma keeps_modify {B} (f : St -> B) (g : St -> St) :
  (forall s, f (g s) = f s) -> keeps f (modify (Ev:=Ev) g).
Proof. intros H s; apply H. Qed.

Lemma keeps_bind {A B C} (f : St -> C) (m : exec St Ev A) (k : A -> exec St Ev B) :
  keeps f m -> (forall a, keeps f (k a)) -> keeps f (bind m k).
Proof.
  intros Hm Hk s. rewrite run_bind.
  destruct (result_of (m s)) as [a|e]; cbn.
  - rewrite Hk. apply Hm.
  - apply Hm.
Qed.

Lemma keeps_try_except {A C} (f : St -> C) (body : exec St Ev A) handlers :
  keeps f body ->
  (forall e h, handlers e = Some h -> keeps f h) ->
  keeps f (try_except body handlers).
Proof.
  intros Hb Hh s. rewrite run_try_except.
  destruct (result_of (body s)) as [a|e]; [apply Hb|].
  destruct (handlers e) as [h|] eqn:E; [|apply Hb].
  cbn. rewrite (Hh _ _ E). apply Hb.
Qed.

Lemma keeps_except_Exception {A C} (f : St -> C) (h : exc -> exec St Ev A) :
  (forall e, keeps f (h e)) ->
  forall e h', except_Exception h e = Some h' -> keeps f h'.
Proof.
  intros H e h'. unfold except_Exception.
  destruct (is_Exception e); [|discriminate].
  intros [= <-]. apply H.
Qed.

Lemma keeps_for_each {A C} (f : St -> C) (xs : list A) body :
  (forall x, keeps f (body x)) -> keeps f (for_each (Ev:=Ev) xs body).
Proof.
  intros H. induction xs as [|x xs IH]; cbn [for_each].
  - apply keeps_ret.
  - apply keeps_bind; [apply H | intros _; exact IH].
Qed.

(** ** What can be raised *)

Lemma returns_raises_only_errors {A} (m : exec St Ev A) :
  returns m -> raises_only_errors m.
Proof. intros H s e He. destruct (H s) as [a Ha]. congruence. Qed.

Lemma raises_only_errors_bind {A B} (m : exec St Ev A) (k : A -> exec St Ev B) :
  raises_only_errors m -> (forall a, raises_only_errors (k a)) ->
  raises_only_errors (bind m k).
Proof.
  intros Hm Hk s e. rewrite run_bind.
  destruct (result_of (m s)) as [a|e'] eqn:E; cbn.
  - apply Hk.
  - intros [= ->]. eapply Hm, E.
Qed.

Lemma raises_only_errors_await {A} (ev : Ev) (o : outcome A) :
  match o with Ret _ => true | Raise e => is_Exception e end = true ->
  raises_only_errors (await (St:=St) ev o).
Proof. intros H s e. cbn. intros ->. exact H. Qed.

Lemma raises_only_errors_raise {A} e :
  is_Exception e = true -> raises_only_errors (raise (St:=St) (Ev:=Ev) (A:=A) e).
Proof. intros H s e'. cbn. intros [= <-]. exact H. Qed.

Lemma returns_ret {A} (a : A) : returns (ret (St:=St) (Ev:=Ev) a).
Proof. intros s; eexists; reflexivity. Qed.

Lemma returns_gets {A} (g : St -> A) : returns (gets (Ev:=Ev) g).
Proof. intros s; eexists; reflexivity. Qed.

Lemma returns_modify (g : St -> St) : returns (modify (Ev:=Ev) g).
Proof. intros s; eexists; reflexivity. Qed.

Lemma returns_emit (ev : Ev) : returns (emit (St:=St) ev).
Proof. intros s; eexists; reflexivity. Qed.

Lemma returns_bind {A B} (m : exec St Ev A) (k : A -> exec St Ev B) :
  returns m -> (forall a, returns (k a)) -> returns (bind m k).
Proof.
  intros Hm Hk s. rewrite run_bind.
  destruct (Hm s) as [a ->]. cbn. apply Hk.
Qed.

(** [try: body / except Exception: h] never raises when the body raises
    only [Exception]s and the handler never raises. *)
Lemma returns_try_except {A} (body : exec St Ev A) (h : exc -> exec St Ev A) :
  raises_only_errors body -> (forall e, returns (h e)) ->
  returns (try_except body (except_Exception h)).
Proof.
  intros Hb Hh s. rewrite run_try_except.
  destruct (result_of (body s)) as [a|e] eqn:E.
  - exists a. exact E.
  - unfold except_Exception. rewrite (Hb _ _ E). cbn. apply Hh.
Qed.

End ExecFacts.

Lemma for_each_app {St Ev A} (xs ys : list A) (body : A -> exec St Ev unit) s :
  for_each (xs ++ ys) body s = bind (for_each xs body) (fun _ => for_each ys body) s.
Proof.
  revert s. induction xs as [|x xs IH]; intros s; cbn [for_each app].
  - rewrite run_bind. cbn. apply triple_eta.
  - rewrite !run_bind. destruct (result_of (body x s)) as [[]|e] eqn:E; [|reflexivity].
    rewrite IH. rewrite !run_bind.
    destruct (result_of (for_each xs body (state_of (body x s)))); cbn;
      rewrite ?app_assoc; reflexivity.
Qed.

Create HintDb frame.
#[export] Hint Resolve keeps_ret keeps_raise keeps_gets keeps_emit keeps_await
  keeps_of_outcome keeps_for_each : frame.
#[export] Hint Resolve returns_ret returns_gets returns_modify returns_emit
  raises_only_errors_raise returns_raises_only_errors : frame.

(** * Facts about the polling agent *)
Module MarketSentimentFacts.
Import MarketSentiment.

(** [frame] proves that a computation built from the monad's operations
    leaves a component of the agent alone; [errors] that it never raises,
    or raises only [Exception]s. *)
Ltac frame :=
  repeat first
    [ solve [auto with frame]
    | apply keeps_bind; [|intros ?]
    | apply keeps_try_except; [|apply keeps_except_Exception; intros ?]
    | apply keeps_modify; intros ?; reflexivity
    | match goal with
      | |- keeps _ (match ?x with _ => _ end) => destruct x
      end ].

Ltac errors :=
  repeat first
    [ solve [auto with frame]
    | apply raises_only_errors_bind; [|intros ?]
    | apply raises_only_errors_await; assumption
    | apply returns_raises_only_errors, returns_try_except; [|intros ?]
    | apply returns_bind; [|intros ?]
    | match goal with
      | |- raises_only_errors (match ?x with _ => _ end) => destruct x
      | |- returns (match ?x with _ => _ end) => destruct x
      end ].

Lemma process_message_keeps_watermark message llm :
  keeps last_message_timestamp (_process_message message llm).
Proof. unfold _process_message, dict_getitem, new_list, read_list, list_extend. frame. Qed.

Lemma process_message_keeps_session message llm :
  keeps _session (_process_message message llm).
Proof. unfold _process_message, dict_getitem, new_list, read_list, list_extend. frame. Qed.

Lemma process_message_keeps_url message llm :
  keeps api_url (_process_message message llm).
Proof. unfold _process_message, dict_getitem, new_list, read_list, list_extend. frame. Qed.

#[export] Hint Resolve process_message_keeps_watermark process_message_keeps_session
  process_message_keeps_url : frame.

Lemma handle_message_keeps_watermark message e :
  keeps last_message_timestamp (handle_message message e).
Proof.
  unfold handle_message, session_post. frame.
Qed.

Lemma handle_message_keeps_session message e :
  keeps _session (handle_message message e).
Proof.
  unfold handle_message, session_post. frame.
Qed.

Lemma handle_message_keeps_url message e :
  keeps api_url (handle_message message e).
Proof.
  unfold handle_message, session_post. frame.
Qed.

Lemma process_message_returns message llm :
  catchable llm = true -> returns (_process_message message llm).
Proof.
  intros H. unfold _process_message, dict_getitem, new_list, read_list, list_extend.
  apply returns_try_except; [|intros ?; errors].
  errors.
Qed.

Lemma handle_message_returns message e :
  dispatch_completes e = true -> returns (handle_message message e).
Proof.
  unfold dispatch_completes. intros [Hl Hp]%andb_prop.
  unfold handle_message, session_post.
  apply returns_try_except; [|intros ?; errors].
  apply raises_only_errors_bind; [errors|intros _].
  apply raises_only_errors_bind.
  { apply returns_raises_only_errors, process_message_returns, Hl. }
  intros response. errors.
Qed.

(** ** The conversation store *)

Lemma lookup_total_snoc_nil {A} (h : list (list A)) (l : nat) :
  (h ++ [[]]) !!! l = h !!! l.
Proof.
  rewrite !list_lookup_total_alt.
  destruct (decide (l < length h)) as [Hlt|Hge].
  - by rewrite lookup_app_l.
  - rewrite (lookup_ge_None_2 h l) by lia. cbn.
    destruct (decide (l = length h)) as [->|Hne].
    + rewrite list_lookup_middle; done.
    + rewrite lookup_ge_None_2; [done|]. rewrite length_app. cbn. lia.
Qed.

Lemma stored_history_lazy_init peer a p :
  stored_history (lazy_init peer a) p = stored_history a p.
Proof.
  unfold lazy_init. destruct (conversation_history a !! peer) eqn:E; [done|].
  unfold stored_history; cbn.
  destruct (decide (peer = p)) as [<-|Hne].
  - rewrite lookup_insert_eq, E. rewrite lookup_total_snoc_nil.
    rewrite list_lookup_total_alt, lookup_ge_None_2; [done|lia].
  - rewrite lookup_insert_ne by done.
    destruct (conversation_history a !! p); [|done]. apply lookup_total_snoc_nil.
Qed.

Lemma process_message_success a message c cs :
  let peer := Message.from_agent_id message in
  _process_message message (Ret (c :: cs)) a =
  (slice_copy peer (record_turns peer (turn_pair message c) (lazy_init peer a)),
   [Sleep (1 # 2); ChatCompletion (prompt a message)],
   Ret (str_or c "Sorry, I couldn't process that request.")).
Proof.
  intros peer.
  assert (Hp : prompt (lazy_init peer a) message = prompt a message).
  { unfold prompt. by rewrite stored_history_lazy_init. }
  rewrite <- Hp. clear Hp.
  unfold prompt, slice_copy, record_turns, turn_pair, stored_history, lazy_init, peer.
  unfold _process_message, try_except, bind, dict_getitem, new_list, read_list,
    list_extend, gets, modify, emit, await, ret, raise, except_Exception.
  destruct (conversation_history a !! Message.from_agent_id message) eqn:E;
    do 3 (cbn -[Nat.ltb]; rewrite ?E, ?lookup_insert_eq);
    match goal with |- context [(10 <? ?n)%nat] => destruct (10 <? n)%nat end;
    reflexivity.
Qed.

Lemma wf_lazy_init peer a : wf a -> wf (lazy_init peer a).
Proof.
  unfold lazy_init. intros H. destruct (conversation_history a !! peer) eqn:E; [done|].
  intros p l. cbn. rewrite length_app. cbn.
  destruct (decide (peer = p)) as [<-|Hne].
  - rewrite lookup_insert_eq. intros [= <-]. lia.
  - rewrite lookup_insert_ne by done. intros Hl. apply H in Hl. lia.
Qed.

Lemma wf_record_turns peer turns a : wf a -> wf (record_turns peer turns a).
Proof.
  unfold record_turns. intros H. destruct (conversation_history a !! peer); [|done].
  intros p l'. cbn. rewrite length_alter. apply H.
Qed.

Lemma wf_slice_copy peer a : wf a -> wf (slice_copy peer a).
Proof.
  unfold slice_copy. intros H.
  destruct (10 <? _)%nat; [|done].
  intros p l Hl. cbn in *. rewrite length_app. apply H in Hl. lia.
Qed.

Lemma stored_history_slice_copy peer a p :
  wf a -> stored_history (slice_copy peer a) p = stored_history a p.
Proof.
  unfold slice_copy. intros H.
  destruct (10 <? _)%nat; [|done].
  unfold stored_history. cbn.
  destruct (conversation_history a !! p) as [l|] eqn:E; [|done].
  apply H in E. rewrite !list_lookup_total_alt, lookup_app_l; done.
Qed.

Lemma stored_history_record_turns peer turns a :
  wf a -> is_Some (conversation_history a !! peer) ->
  stored_history (record_turns peer turns a) peer = stored_history a peer ++ turns.
Proof.
  unfold record_turns, stored_history. intros H [l E]. rewrite E. cbn. rewrite E.
  apply H in E. rewrite list_lookup_total_alter.
  destruct (decide _) as [_|Hn]; [done|]. exfalso; apply Hn; done.
Qed.

Lemma lazy_init_known peer a : is_Some (conversation_history (lazy_init peer a) !! peer).
Proof.
  unfold lazy_init. destruct (conversation_history a !! peer) eqn:E.
  - rewrite E. eauto.
  - cbn. rewrite lookup_insert_eq. eauto.
Qed.

Lemma process_message_grows a message c cs :
  wf a ->
  let a' := state_of (_process_message message (Ret (c :: cs)) a) in
  wf a' /\
  stored_history a' (Message.from_agent_id message) =
  stored_history a (Message.from_agent_id message) ++ turn_pair message c.
Proof.
  intros H a'. subst a'. rewrite process_message_success. cbn [state_of fst].
  split.
  - by apply wf_slice_copy, wf_record_turns, wf_lazy_init.
  - rewrite stored_history_slice_copy by by apply wf_record_turns, wf_lazy_init.
    rewrite stored_history_record_turns.
    + by rewrite stored_history_lazy_init.
    + by apply wf_lazy_init.
    + apply lazy_init_known.
Qed.

Lemma process_message_failure a message llm :
  llm_fails llm = true ->
  exists e,
    _process_message message llm a =
    (lazy_init (Message.from_agent_id message) a,
     [Sleep (1 # 2); ChatCompletion (prompt a message); Print (LErrorProcessing e)],
     Ret "Sorry, I encountered an error processing your message.").
Proof.
  intros Hf.
  assert (Hp : prompt (lazy_init (Message.from_agent_id message) a) message = prompt a message).
  { unfold prompt. by rewrite stored_history_lazy_init. }
  rewrite <- Hp. clear Hp.
  unfold prompt, stored_history, lazy_init.
  unfold _process_message, try_except, bind, dict_getitem, new_list, read_list,
    list_extend, gets, modify, emit, await, ret, raise, except_Exception.
  destruct (conversation_history a !! Message.from_agent_id message) eqn:E; cbn.
  - rewrite E; cbn.
    destruct llm as [[|c cs]|e]; cbn in *; try discriminate.
    + exists IndexError. reflexivity.
    + exists e. rewrite Hf. reflexivity.
  - rewrite !lookup_insert_eq; cbn.
    destruct llm as [[|c cs]|e]; cbn in *; try discriminate.
    + exists IndexError. reflexivity.
    + exists e. rewrite Hf. reflexivity.
Qed.

(** ** The polling loop *)

Section Polling.
Variable import_time : pyfloat.

Lemma poll_item_rejected it a :
  raw it = Rejected -> poll_item import_time it a = (a, [], Raise ValidationError).
Proof. intros H. unfold poll_item. rewrite H. reflexivity. Qed.

Lemma poll_item_ok it a :
  item_ok it = true ->
  exists m a1 t1,
    new_Message import_time (raw it) = Ret m /\
    poll_item import_time it a =
      (set_last_message_timestamp (fun w => py_max w (Message.timestamp m)) a1,
       t1, Ret tt) /\
    last_message_timestamp a1 = last_message_timestamp a /\
    _session a1 = _session a /\ api_url a1 = api_url a.
Proof.
  unfold item_ok. destruct (raw it) as [f c v ts|] eqn:Er; [|discriminate].
  intros Hd. set (m := Message.mk f c v (default import_time ts)).
  exists m, (state_of (handle_message m (env it) a)),
    (trace_of (handle_message m (env it) a)).
  split; [reflexivity|].
  split.
  - unfold poll_item. rewrite Er. cbn [new_Message].
    rewrite run_bind. cbn [of_outcome result_of state_of trace_of fst snd].
    rewrite run_bind.
    fold m. destruct (handle_message_returns m _ Hd a) as [[] ->].
    cbn. rewrite app_nil_r. reflexivity.
  - split; [apply handle_message_keeps_watermark|].
    split; [apply handle_message_keeps_session | apply handle_message_keeps_url].
Qed.

Lemma timestamps_cons it items :
  timestamps import_time (it :: items) =
  match new_Message import_time (raw it) with
  | Ret m => [Message.timestamp m]
  | Raise _ => []
  end ++ timestamps import_time items.
Proof. reflexivity. Qed.

Lemma for_each_ok items : forall a,
  forallb item_ok items = true ->
  exists a' t,
    for_each items (poll_item import_time) a = (a', t, Ret tt) /\
    last_message_timestamp a' =
      fold_left py_max (timestamps import_time items) (last_message_timestamp a) /\
    _session a' = _session a /\ api_url a' = api_url a.
Proof.
  induction items as [|it items IH]; intros a H.
  - exists a, []. cbn. auto.
  - cbn [forallb] in H. apply andb_prop in H as [Hit Hrest].
    destruct (poll_item_ok it a Hit) as (m & a1 & t1 & Hm & Hp & Hw & Hs & Hu).
    destruct (IH (set_last_message_timestamp (fun w => py_max w (Message.timestamp m)) a1) Hrest)
      as (a' & t & Hf & Hw' & Hs' & Hu').
    exists a', (t1 ++ t). cbn [for_each]. rewrite run_bind, Hp.
    cbn [result_of state_of trace_of fst snd]. rewrite Hf.
    cbn [result_of state_of trace_of fst snd].
    split; [reflexivity|]. rewrite timestamps_cons, Hm. cbn [app fold_left].
    rewrite Hw', Hs', Hu'. cbn. rewrite Hw. auto.
Qed.

Lemma poll_cycle_no_session a resp :
  _session a = None ->
  poll_cycle import_time resp a = (a, [Print (LErrorPolling AttributeError)], Ret tt).
Proof.
  intros Hs. unfold poll_cycle, try_except, bind, gets, raise. rewrite Hs. reflexivity.
Qed.

Lemma poll_cycle_request_fails a s e :
  _session a = Some s -> is_Exception e = true ->
  poll_cycle import_time (Raise e) a =
  (a, [get_request a; Print (LErrorPolling e)], Ret tt).
Proof.
  intros Hs He.
  unfold poll_cycle, try_except, bind, gets, await, except_Exception.
  rewrite Hs. cbn. rewrite He. reflexivity.
Qed.

Lemma poll_cycle_items a s items :
  _session a = Some s ->
  poll_cycle import_time (Ret items) a =
  let r := for_each items (poll_item import_time) a in
  match result_of r with
  | Ret _ => (state_of r, get_request a :: trace_of r, Ret tt)
  | Raise e =>
      if is_Exception e
      then (state_of r, get_request a :: trace_of r ++ [Print (LErrorPolling e)], Ret tt)
      else (state_of r, get_request a :: trace_of r, Raise e)
  end.
Proof.
  intros Hs.
  unfold poll_cycle, try_except, bind, gets, await, except_Exception.
  rewrite Hs. cbn.
  destruct (for_each items (poll_item import_time) a) as [[a' t] [[]|e]]; cbn;
    [reflexivity|].
  destruct (is_Exception e); reflexivity.
Qed.

Lemma start_polling_cons resp nap rest a a1 t1 :
  poll_cycle import_time resp a = (a1, t1, Ret tt) ->
  _start_polling import_time ((resp, nap) :: rest) a =
  match nap with
  | Elapsed =>
      (state_of (_start_polling import_time rest a1),
       t1 ++ Sleep 5 :: trace_of (_start_polling import_time rest a1),
       result_of (_start_polling import_time rest a1))
  | Cancelled => (a1, t1 ++ [Sleep 5], Raise (NonError "CancelledError"))
  end.
Proof.
  intros H. cbn [_start_polling]. rewrite run_bind, H.
  cbn [result_of state_of trace_of fst snd]. rewrite run_bind.
  destruct nap; cbn [sleep_result await result_of state_of trace_of fst snd];
    reflexivity.
Qed.

Lemma last_cons_default {A} (x : A) l d d' :
  List.last (x :: l) d = List.last (x :: l) d'.
Proof.
  revert x. induction l as [|y l IH]; intros x; [reflexivity|].
  change (List.last (y :: l) d = List.last (y :: l) d'). apply IH.
Qed.

Lemma fold_max_increasing ts : forall w,
  strictly_increasing (w :: ts) = true ->
  fold_left py_max ts w = List.last ts w.
Proof.
  induction ts as [|t ts IH]; intros w H; [reflexivity|].
  cbn [strictly_increasing] in H. apply andb_prop in H as [Hgt Hrest].
  cbn [fold_left]. unfold py_max at 2. rewrite Hgt.
  rewrite IH by exact Hrest.
  destruct ts as [|p ts]; [reflexivity|].
  change (List.last (p :: ts) t = List.last (p :: ts) w).
  apply last_cons_default.
Qed.
End Polling.
Lemma poll_cycle_all_ok import_time a s items :
  _session a = Some s ->
  forallb item_ok items = true ->
  result_of (poll_cycle import_time (Ret items) a) = Ret tt
  /\ last_message_timestamp (state_of (poll_cycle import_time (Ret items) a)) =
     fold_left py_max (timestamps import_time items) (last_message_timestamp a).
Proof.
  intros Hs Hok.
  rewrite (poll_cycle_items import_time a s items Hs).
  destruct (for_each_ok import_time items a Hok) as (a' & t & Hf & Hw & _).
  rewrite Hf. cbn [result_of state_of trace_of fst snd].
  split; [reflexivity|exact Hw].
Qed.

(** * The claims about the polling agent *)

(** C10.  Whenever the [try] body of [_process_message] fails (the
    language-model call raises an [Exception], or the completion has no
    choice to read), the call returns the fixed fallback string instead of
    raising, and the stored conversation history of every peer, the
    sender's included, is what it was before the call: no turn is
    appended. *)
Theorem process_message_error_fallback a message llm :
  llm_fails llm = true ->
  result_of (_process_message message llm a) =
    Ret "Sorry, I encountered an error processing your message."
  /\ (forall peer,
        stored_history (state_of (_process_message message llm a)) peer =
        stored_history a peer).
Proof.
  intros H. destruct (process_message_failure a message llm H) as [e ->].
  split; [reflexivity|]. intros peer. apply stored_history_lazy_init.
Qed.

(** C10 at a concrete input: the language-model call raises a connection
    error on the first message of a peer. *)
Lemma process_message_error_fallback_witness :
  result_of (_process_message (Message.mk "p1" "hi" None (Fin 1))
               (Raise (OtherError "APIConnectionError")) started) =
    Ret "Sorry, I encountered an error processing your message."
  /\ (forall peer,
        stored_history
          (state_of (_process_message (Message.mk "p1" "hi" None (Fin 1))
                       (Raise (OtherError "APIConnectionError")) started)) peer =
        stored_history started peer).
Proof.
  apply (process_message_error_fallback started (Message.mk "p1" "hi" None (Fin 1))
           (Raise (OtherError "APIConnectionError"))).
  reflexivity.
Defined.

(** C5.  In a poll cycle whose records all parse and whose dispatches all
    run to their end, the watermark is advanced to [max(watermark,
    timestamp)] after each message, so it ends as the fold of [max] over
    the batch; hence when the timestamps are strictly increasing and all
    greater than the watermark at the start, the watermark after the cycle
    is the timestamp of the last message of the batch. *)
Theorem watermark_after_full_cycle import_time a s items :
  _session a = Some s ->
  forallb item_ok items = true ->
  let r := poll_cycle import_time (Ret items) a in
  let w := last_message_timestamp a in
  let ts := timestamps import_time items in
  result_of r = Ret tt
  /\ last_message_timestamp (state_of r) = fold_left py_max ts w
  /\ (strictly_increasing ts = true ->
      Forall (fun t => py_gt t w = true) ts ->
      last_message_timestamp (state_of r) = List.last ts w).
Proof.
  intros Hs Hok r w ts. subst r.
  destruct (poll_cycle_all_ok import_time a s items Hs Hok) as [Hr Hw].
  split; [exact Hr|]. split; [exact Hw|].
  intros Hinc Hall. rewrite Hw. apply fold_max_increasing.
  fold ts. destruct ts as [|t0 ts']; [reflexivity|].
  cbn [strictly_increasing]. apply andb_true_intro. split; [|exact Hinc].
  by inversion Hall.
Qed.

(** C5 at a concrete input: a fresh agent polls three messages with
    timestamps 1, 2, 3. *)
Lemma watermark_after_full_cycle_witness :
  let r := poll_cycle (Fin 7) (Ret [item_at 1; item_at 2; item_at 3]) started in
  result_of r = Ret tt
  /\ last_message_timestamp (state_of r) = Fin 3.
Proof.
  pose proof (watermark_after_full_cycle (Fin 7) started 0
                [item_at 1; item_at 2; item_at 3] eq_refl eq_refl) as (H1 & H2 & H3).
  split; [exact H1|].
  apply H3; [reflexivity|].
  repeat constructor.
Defined.
(** C6 as stated fails: when the second record of a batch is rejected by
    validation, the cycle ends with the watermark moved to the timestamp
    of the first record, not left at its value at the start of the
    cycle. *)
Lemma rejected_item_leaves_watermark_advanced :
  let a' := state_of (poll_cycle (Fin 0) (Ret [item_at 5; rejected_item]) started) in
  last_message_timestamp a' = Fin 5
  /\ last_message_timestamp a' <> last_message_timestamp started.
Proof. vm_compute. split; [reflexivity|discriminate]. Qed.

(** C6, amended.  If the batch request fails with an [Exception], the
    cycle changes nothing in the agent, the watermark included.  If a
    record of the batch is rejected by validation after records that were
    dispatched, the cycle ends there exactly as a cycle over those earlier
    records would, plus one log line: the watermark has advanced over the
    earlier records, and neither the rejected record nor any record after
    it is dispatched.  In both cases the cycle does not raise, and the
    loop sleeps 5 seconds and goes on with the next cycle, unless the
    poll task is cancelled during that sleep, which ends the loop. *)
Theorem poll_cycle_failure_contained import_time a s e pre bad post rest :
  _session a = Some s ->
  is_Exception e = true ->
  forallb item_ok pre = true ->
  raw bad = Rejected ->
  let dispatched := poll_cycle import_time (Ret pre) a in
  poll_cycle import_time (Raise e) a =
    (a, [get_request a; Print (LErrorPolling e)], Ret tt)
  /\ poll_cycle import_time (Ret (pre ++ bad :: post)) a =
    (state_of dispatched,
     trace_of dispatched ++ [Print (LErrorPolling ValidationError)], Ret tt)
  /\ last_message_timestamp (state_of dispatched) =
     fold_left py_max (timestamps import_time pre) (last_message_timestamp a)
  /\ (forall resp, resp = Raise e \/ resp = Ret (pre ++ bad :: post) ->
      let r := poll_cycle import_time resp a in
      let next := _start_polling import_time rest (state_of r) in
      _start_polling import_time ((resp, Elapsed) :: rest) a =
        (state_of next, trace_of r ++ Sleep 5 :: trace_of next, result_of next)
      /\ _start_polling import_time ((resp, Cancelled) :: rest) a =
        (state_of r, trace_of r ++ [Sleep 5], Raise (NonError "CancelledError"))).
Proof.
  intros Hs He Hpre Hbad dispatched.
  pose proof (poll_cycle_request_fails import_time a s e Hs He) as Hreq.
  destruct (for_each_ok import_time pre a Hpre) as (a1 & t1 & Hf & Hw & _).
  assert (Hd : dispatched = (a1, get_request a :: t1, Ret tt)).
  { unfold dispatched. rewrite (poll_cycle_items import_time a s pre Hs), Hf. reflexivity. }
  assert (Hitem : poll_cycle import_time (Ret (pre ++ bad :: post)) a =
            (a1, (get_request a :: t1) ++ [Print (LErrorPolling ValidationError)], Ret tt)).
  { rewrite (poll_cycle_items import_time a s _ Hs), for_each_app, run_bind, Hf.
    cbn [result_of state_of trace_of fst snd for_each].
    rewrite run_bind, (poll_item_rejected import_time bad a1 Hbad).
    cbn [result_of state_of trace_of fst snd is_Exception].
    rewrite app_nil_r. reflexivity. }
  rewrite Hd. cbn [state_of trace_of fst snd].
  split; [exact Hreq|]. split; [exact Hitem|]. split; [exact Hw|].
  intros resp [-> | ->]; cbn zeta.
  - rewrite !(start_polling_cons import_time _ _ rest a _ _ Hreq), Hreq.
    split; reflexivity.
  - rewrite !(start_polling_cons import_time _ _ rest a _ _ Hitem), Hitem.
    split; reflexivity.
Qed.

(** C6 amended, at a concrete input: a batch of three records whose second
    one is rejected. *)
Lemma poll_cycle_failure_contained_witness :
  poll_cycle (Fin 0) (Ret ([item_at 5] ++ rejected_item :: [item_at 6])) started =
  (state_of (poll_cycle (Fin 0) (Ret [item_at 5]) started),
   trace_of (poll_cycle (Fin 0) (Ret [item_at 5]) started)
     ++ [Print (LErrorPolling ValidationError)], Ret tt).
Proof.
  apply (poll_cycle_failure_contained (Fin 0) started 0 (OtherError "ClientError")
           [item_at 5] rejected_item [item_at 6] [] eq_refl eq_refl eq_refl eq_refl).
Defined.

End MarketSentimentFacts.

(** * Facts about the streaming agent *)
Module NodeFacts.
Import Node.

(** C2 as stated fails: handler 1 is registered before handler 2 and
    raises; handler 2, which would return, is not invoked with the
    message. *)
Lemma later_handler_not_invoked :
  let r := handle_message hello first_raises two_handlers in
  _message_handlers two_handlers = [1; 2]
  /\ first_raises 1 = Raise (OtherError "ZeroDivisionError")
  /\ first_raises 2 = Ret tt
  /\ ~ In (Call 2 hello) (trace_of r).
Proof.
  vm_compute. repeat split; try reflexivity.
  intros [H|[H|[H|[]]]]; discriminate.
Qed.

(** C2, amended.  If a handler raises an [Exception] while it is awaited
    in a dispatch, [handle_message] logs the error and returns, so the
    error does not reach the pump: the pump is neither ended nor sent to
    an [except] clause of its loop, it goes on to its loop guard (and
    receives again while the agent is running and connected).  No other
    handler is awaited for that message, whatever handlers are registered
    at that moment and whatever was done to the handler list during the
    dispatch: the handlers after the failing one are not invoked. *)
Theorem failing_handler_ends_dispatch sys i message e :
  pump sys = AtHandler i message ->
  is_Exception e = true ->
  step sys (PumpWake (WHandler (Raise e))) =
  mkSystem (agent sys) (at_guard (agent sys))
           (trace sys ++ Print (LErrorHandling e) :: guard_trace (agent sys)).
Proof.
  intros Hp He. destruct sys as [a pc t]. cbn [pump agent trace] in *. subst pc.
  unfold step. cbn [pump agent trace _handle_messages].
  unfold loop_body, handle_message_resume, handler_error, loop_head, try_except,
    bind, of_outcome, gets, emit, ret, except_Exception, at_guard, guard_trace.
  rewrite He. cbn.
  destruct (_running a), (_websocket a); cbn; rewrite <- ?app_assoc; reflexivity.
Qed.

(** C2 amended, at a concrete input: handlers 1, 2, 3 are registered;
    handler 1 unregisters itself while it is awaited, so the dispatch goes
    on with handler 3, which raises.  Handler 2, registered before the
    failing one, was not invoked either. *)
Lemma failing_handler_ends_dispatch_witness :
  pump one_shot_dispatch = AtHandler 1 hello
  /\ List.filter is_call (trace one_shot_dispatch) = [Call 1 hello; Call 3 hello]
  /\ step one_shot_dispatch
        (PumpWake (WHandler (Raise (OtherError "ZeroDivisionError")))) =
     mkSystem (agent one_shot_dispatch) (AtRecv 1)
       (trace one_shot_dispatch ++
        [Print (LErrorHandling (OtherError "ZeroDivisionError")); WsRecv 1]).
Proof.
  split; [reflexivity|]. split; [reflexivity|].
  apply (failing_handler_ends_dispatch one_shot_dispatch 1 hello
           (OtherError "ZeroDivisionError")); reflexivity.
Defined.

(** C8.  With no websocket ([_websocket] is [None]), [send_message] raises
    [RuntimeError("Not connected to node")] to its caller at once: nothing
    is written, nothing is slept on or retried, and the agent is
    unchanged, whatever a send would have completed with. *)
Theorem send_message_not_connected a to_agent_id content conversation_id s :
  _websocket a = None ->
  send_message to_agent_id content conversation_id s a =
  (a, [], Raise (RuntimeError "Not connected to node")).
Proof.
  intros H. unfold send_message, bind, gets. rewrite H. reflexivity.
Qed.

(** C8 at a concrete input: an agent that was never started. *)
Lemma send_message_not_connected_witness :
  send_message "peer" "hi" None (Ret tt) (__init__ "ws://localhost:8080" None) =
  (__init__ "ws://localhost:8080" None, [], Raise (RuntimeError "Not connected to node")).
Proof.
  apply (send_message_not_connected (__init__ "ws://localhost:8080" None)
           "peer" "hi" None (Ret tt)).
  reflexivity.
Defined.

(** C7 as stated fails: calling the token a second time raises
    [ValueError]. *)
Lemma second_unregister_raises :
  let r := on_message 7 (__init__ "ws://localhost:8080" None) in
  let once := call_token (Unregister 7) (state_of r) in
  let twice := call_token (Unregister 7) (state_of once) in
  result_of r = Ret (Unregister 7)
  /\ result_of once = Ret tt
  /\ result_of twice = Raise ValueError.
Proof. vm_compute. repeat split. Qed.

Lemma list_remove_absent h l : ~ In h l -> list_remove h l = None.
Proof.
  induction l as [|y l IH]; intros Hn; [reflexivity|]. cbn [list_remove].
  destruct (Nat.eqb_spec y h) as [->|Hne].
  - exfalso. apply Hn. left. reflexivity.
  - rewrite IH; [reflexivity|]. intros Hin. apply Hn. right. exact Hin.
Qed.

Lemma list_remove_snoc h l : ~ In h l -> list_remove h (l ++ [h]) = Some l.
Proof.
  induction l as [|y l IH]; intros Hn; cbn [list_remove app].
  - rewrite Nat.eqb_refl. reflexivity.
  - destruct (Nat.eqb_spec y h) as [->|Hne].
    + exfalso. apply Hn. left. reflexivity.
    + rewrite IH; [reflexivity|]. intros Hin. apply Hn. right. exact Hin.
Qed.

(** C7, amended.  For a handler that is not registered yet, [on_message]
    appends it and returns a token; calling the token removes exactly that
    handler, giving back the agent as it was; calling it a second time
    raises [ValueError] and leaves the handler list unchanged. *)
Theorem unregister_once a h :
  ~ In h (_message_handlers a) ->
  let r := on_message h a in
  exists tok,
    result_of r = Ret tok
    /\ _message_handlers (state_of r) = _message_handlers a ++ [h]
    /\ call_token tok (state_of r) = (a, [], Ret tt)
    /\ call_token tok a = (a, [], Raise ValueError).
Proof.
  intros Hn r. exists (Unregister h). subst r.
  split; [reflexivity|]. split; [reflexivity|].
  unfold call_token, on_message, bind, gets, modify, ret, raise, state_of. cbn.
  rewrite list_remove_snoc, list_remove_absent by exact Hn.
  destruct a; split; reflexivity.
Qed.

(** C3, evaluated on the code.  The claim is that after [stop()] a
    connection-closed event seen by the pump triggers no reconnect.  Here
    the agent is connected and its pump waits in [recv]; [stop()] runs;
    the pending [recv] then raises [ConnectionClosed], as it does on a
    closed socket.  The [except ConnectionClosed] clause does not look at
    [_running]: it sleeps 5 seconds and calls [_connect], which opens
    websocket 2, registers on it and stores it in the stopped agent. *)
Theorem reconnect_after_stop :
  let stopped := run connected [CallStop (Ret tt)] in
  let sys :=
    run stopped
        [PumpWake (WRecv (Raise ConnectionClosed));
         PumpWake WSleep;
         PumpWake (WConnect (Ret 2) (Ret tt))] in
  _running (agent stopped) = false
  /\ _websocket (agent stopped) = None
  /\ trace sys =
     trace stopped ++
       [Print LConnectionClosed; Sleep 5; WsConnect "ws://localhost:8080";
        WsSend 2 (Register "agent-1"); CreateTask]
  /\ _websocket (agent sys) = Some 2
  /\ _running (agent sys) = false.
Proof. vm_compute. repeat split. Qed.

(** Whatever [stop()] did, a pump waiting in [recv] that sees the
    connection closed goes on to the connect of its reconnect path. *)
Lemma stop_then_drop_reaches_connect sys w cl :
  pump sys = AtRecv w ->
  let sys' :=
    Node.run sys [CallStop cl;
                  PumpWake (WRecv (Raise ConnectionClosed));
                  PumpWake WSleep] in
  pump sys' = AtConnect /\ _running (agent sys') = false.
Proof.
  intros Hp. cbn [Node.run fold_left].
  set (s1 := step sys (CallStop cl)).
  assert (H1 : pump s1 = AtRecv w /\ _running (agent s1) = false).
  { unfold s1, step, stop, bind, modify, gets, emit, await.
    destruct (agent sys) as [url aid [w0|] hs r]; cbn;
      [destruct cl as [[]|e]|]; cbn; split; auto. }
  destruct s1 as [a1 p1 t1]. cbn in H1. destruct H1 as [-> Hr].
  cbn. split; [reflexivity|exact Hr].
Qed.

(** C4 as stated fails: the connection drops while the agent is running
    and the one reconnect attempt is refused.  The error leaves
    [_handle_messages], the pump is over, and whatever is delivered to it
    afterwards changes nothing: there is no second attempt. *)
Lemma failed_reconnect_ends_pump :
  let sys :=
    run connected
        [PumpWake (WRecv (Raise ConnectionClosed));
         PumpWake WSleep;
         PumpWake (WConnect (Raise (OtherError "ConnectionRefusedError")) (Ret tt))] in
  _running (agent sys) = true
  /\ pump sys = Finished (Raise (OtherError "ConnectionRefusedError"))
  /\ connect_attempts (trace sys) = S (connect_attempts (trace connected))
  /\ run sys [PumpWake WSleep; PumpWake (WConnect (Ret 2) (Ret tt));
              PumpWake (WRecv (Ret FrameOther))] = sys.
Proof. vm_compute. repeat split. Qed.

Lemma finished_pump_stays sys o wakes :
  pump sys = Finished o -> run sys (map PumpWake wakes) = sys.
Proof.
  revert sys. induction wakes as [|w wakes IH]; intros sys H; [reflexivity|].
  cbn [map run fold_left]. 
  assert (Hs : step sys (PumpWake w) = sys).
  { unfold step. rewrite H.
    destruct w; cbn; rewrite app_nil_r; destruct sys; cbn in *; congruence. }
  rewrite Hs. apply IH, H.
Qed.

Lemma connect_attempts_app t1 t2 :
  connect_attempts (t1 ++ t2) = connect_attempts t1 + connect_attempts t2.
Proof. unfold connect_attempts. rewrite List.filter_app, length_app. reflexivity. Qed.

(** C4, amended.  When the pump of a running agent sees the connection
    closed, it logs, sleeps 5 seconds and makes exactly one connect
    attempt.  If that attempt succeeds (and so does the registration, if
    there is one), the new websocket is stored and the pump is back in
    [recv] on it.  If the attempt raises, the error leaves
    [_handle_messages]: the pump is finished with that error and nothing
    delivered to it afterwards has any effect, so there is no further
    attempt; the agent is as before when the connect itself raised, and
    holds the new websocket when it was the registration that raised. *)
Theorem connection_loss_one_reconnect_attempt sys w c s :
  pump sys = AtRecv w ->
  _running (agent sys) = true ->
  let sys1 := step sys (PumpWake (WRecv (Raise ConnectionClosed))) in
  let sys2 := step sys1 (PumpWake WSleep) in
  let sys3 := step sys2 (PumpWake (WConnect c s)) in
  sys1 = mkSystem (agent sys) AtSleep5
                  (trace sys ++ [Print LConnectionClosed; Sleep 5])
  /\ sys2 = mkSystem (agent sys) AtConnect (trace sys1)
  /\ connect_attempts (trace sys3) = S (connect_attempts (trace sys))
  /\ (forall e, c = Raise e ->
        pump sys3 = Finished (Raise e)
        /\ agent sys3 = agent sys
        /\ forall wakes, Node.run sys3 (map PumpWake wakes) = sys3)
  /\ (forall w' e, c = Ret w' -> registration (agent sys) <> [] -> s = Raise e ->
        pump sys3 = Finished (Raise e)
        /\ agent sys3 = set_websocket (Some w') (agent sys)
        /\ forall wakes, Node.run sys3 (map PumpWake wakes) = sys3)
  /\ (forall w', c = Ret w' -> registration (agent sys) = [] \/ s = Ret tt ->
        pump sys3 = AtRecv w'
        /\ _websocket (agent sys3) = Some w'
        /\ _running (agent sys3) = true).
Proof.
  intros Hp Hr sys1 sys2 sys3.
  assert (H1 : sys1 = mkSystem (agent sys) AtSleep5
                  (trace sys ++ [Print LConnectionClosed; Sleep 5])).
  { unfold sys1, step. rewrite Hp. reflexivity. }
  assert (H2 : sys2 = mkSystem (agent sys) AtConnect (trace sys1)).
  { unfold sys2. rewrite H1. cbn. rewrite app_nil_r. reflexivity. }
  split; [exact H1|]. split; [exact H2|].
  unfold sys3. rewrite H2, H1. cbn [step pump agent trace _handle_messages].
  destruct sys as [a pc t]. cbn [agent pump trace] in *.
  destruct a as [url aid ws0 hs running]. cbn [_running] in Hr. subst running.
  unfold registration. cbn [agent_id].
  destruct c as [w'|e].
  - destruct aid as [id|]; [destruct (String.eqb id "") eqn:Eid|];
      try destruct s as [[]|e'];
      unfold _connect, loop_head, try_except, bind, gets, modify, emit, await, ret,
        raise, except_Exception; cbn -[connect_attempts]; rewrite ?Eid;
      cbn -[connect_attempts];
      try (destruct (is_Exception e'); cbn -[connect_attempts]);
      rewrite !connect_attempts_app; cbn.
      all: (split; [lia|]); (split; [intros ? [=]|]).
      all: split;
        [ intros w'' e0 [= <-] Hreg Hs; try (exfalso; apply Hreg; reflexivity);
          try discriminate Hs; injection Hs as <-;
          (split; [reflexivity|]); (split; [reflexivity|]);
          intros wakes; eapply finished_pump_stays; reflexivity
        | intros w'' [= <-] [Hreg|Hs]; try discriminate Hreg; try discriminate Hs;
          repeat split ].
  - (* the connect fails *)
    unfold _connect, loop_head, try_except, bind, gets, modify, emit, await, ret,
        raise, except_Exception; cbn -[connect_attempts].
    destruct (is_Exception e); cbn -[connect_attempts];
      rewrite !connect_attempts_app; cbn;
      (split; [lia|]); (split; [|split; [intros ? ? [=]|intros ? [=]]]);
      intros e0 [= <-]; (split; [reflexivity|]); (split; [reflexivity|]);
      intros wakes; eapply finished_pump_stays; reflexivity.
Qed.

(** C4 amended, at a concrete input: the reconnect of a connected agent is
    made, and its registration is refused. *)
Lemma connection_loss_one_reconnect_attempt_witness :
  let sys3 :=
    run connected
        [PumpWake (WRecv (Raise ConnectionClosed));
         PumpWake WSleep;
         PumpWake (WConnect (Ret 2) (Raise (OtherError "ConnectionResetError")))] in
  connect_attempts (trace sys3) = S (connect_attempts (trace connected))
  /\ pump sys3 = Finished (Raise (OtherError "ConnectionResetError"))
  /\ agent sys3 = set_websocket (Some 2) (agent connected).
Proof.
  pose proof (connection_loss_one_reconnect_attempt connected 1
                (Ret 2) (Raise (OtherError "ConnectionResetError"))
                eq_refl eq_refl) as (_ & _ & H & _ & Hreg & _).
  split; [exact H|].
  destruct (Hreg 2 (OtherError "ConnectionResetError") eq_refl) as (Hp & Ha & _);
    [discriminate|reflexivity|].
  split; [exact Hp | exact Ha].
Defined.

(** C7 amended, at a concrete input: handler 7 on a fresh agent. *)
Lemma unregister_once_witness :
  exists tok,
    result_of (on_message 7 (__init__ "ws://localhost:8080" None)) = Ret tok
    /\ _message_handlers (state_of (on_message 7 (__init__ "ws://localhost:8080" None)))
       = [7]
    /\ call_token tok (state_of (on_message 7 (__init__ "ws://localhost:8080" None)))
       = (__init__ "ws://localhost:8080" None, [], Ret tt)
    /\ call_token tok (__init__ "ws://localhost:8080" None)
       = (__init__ "ws://localhost:8080" None, [], Raise ValueError).
Proof.
  apply (unregister_once (__init__ "ws://localhost:8080" None) 7).
  intros [].
Defined.
End NodeFacts.

(** * More facts about the execution monad *)
Section Relational.
Context {St Ev : Type}.
Variable R : St -> St -> Prop.
Hypothesis R_refl : forall s, R s s.
Hypothesis R_trans : forall s1 s2 s3, R s1 s2 -> R s2 s3 -> R s1 s3.

Lemma moves_ret {A} (a : A) : moves R (ret (Ev:=Ev) a).
Proof. intros s; apply R_refl. Qed.

Lemma moves_raise {A} e : moves R (raise (Ev:=Ev) (A:=A) e).
Proof. intros s; apply R_refl. Qed.

Lemma moves_gets {A} (g : St -> A) : moves R (gets (Ev:=Ev) g).
Proof. intros s; apply R_refl. Qed.

Lemma moves_emit (ev : Ev) : moves R (emit ev).
Proof. intros s; apply R_refl. Qed.

Lemma moves_await {A} (ev : Ev) (o : outcome A) : moves R (await ev o).
Proof. intros s; apply R_refl. Qed.

Lemma moves_of_outcome {A} (o : outcome A) : moves R (of_outcome (Ev:=Ev) o).
Proof. intros s; apply R_refl. Qed.

Lemma moves_modify (g : St -> St) :
  (forall s, R s (g s)) -> moves R (modify (Ev:=Ev) g).
Proof. intros H s; apply H. Qed.

Lemma moves_bind {A B} (m : exec St Ev A) (k : A -> exec St Ev B) :
  moves R m -> (forall a, moves R (k a)) -> moves R (bind m k).
Proof.
  intros Hm Hk s. rewrite run_bind.
  destruct (result_of (m s)) as [a|e]; cbn.
  - eapply R_trans; [apply Hm | apply Hk].
  - apply Hm.
Qed.

Lemma moves_try_except {A} (body : exec St Ev A) handlers :
  moves R body ->
  (forall e h, handlers e = Some h -> moves R h) ->
  moves R (try_except body handlers).
Proof.
  intros Hb Hh s. rewrite run_try_except.
  destruct (result_of (body s)) as [a|e]; [apply Hb|].
  destruct (handlers e) as [h|] eqn:E; [|apply Hb].
  cbn. eapply R_trans; [apply Hb | apply (Hh _ _ E)].
Qed.

Lemma moves_except_Exception {A} (h : exc -> exec St Ev A) :
  (forall e, moves R (h e)) ->
  forall e h', except_Exception h e = Some h' -> moves R h'.
Proof.
  intros H e h'. unfold except_Exception.
  destruct (is_Exception e); [|discriminate].
  intros [= <-]. apply H.
Qed.

Lemma moves_for_each {A} (xs : list A) body :
  (forall x, In x xs -> moves R (body x)) -> moves R (for_each (Ev:=Ev) xs body).
Proof.
  induction xs as [|x xs IH]; intros H; cbn [for_each].
  - apply moves_ret.
  - apply moves_bind; [apply H; left; reflexivity|].
    intros _. apply IH. intros y Hy. apply H. right. exact Hy.
Qed.
End Relational.

Section Containment.
Context {St Ev : Type}.

Lemma keeps_moves {A B} (f : St -> B) (R : B -> B -> Prop) (m : exec St Ev A) :
  (forall b, R b b) -> keeps f m -> moves (fun s s' => R (f s) (f s')) m.
Proof. intros Hr Hk s. rewrite Hk. apply Hr. Qed.

Lemma contains_errors_returns {A} (m : exec St Ev A) :
  returns m -> contains_errors m.
Proof. intros H s e He. destruct (H s) as [a Ha]. congruence. Qed.

Lemma contains_errors_bind {A B} (m : exec St Ev A) (k : A -> exec St Ev B) :
  contains_errors m -> (forall a, contains_errors (k a)) ->
  contains_errors (bind m k).
Proof.
  intros Hm Hk s e. rewrite run_bind.
  destruct (result_of (m s)) as [a|e'] eqn:E; cbn.
  - apply Hk.
  - intros [= ->]. eapply Hm, E.
Qed.

(** [try: body / except Exception: h] lets no [Exception] out when the
    handler never raises. *)
Lemma contains_errors_try_except {A} (body : exec St Ev A) (h : exc -> exec St Ev A) :
  (forall e, returns (h e)) ->
  contains_errors (try_except body (except_Exception h)).
Proof.
  intros Hh s e. rewrite run_try_except.
  destruct (result_of (body s)) as [a|e'] eqn:E.
  - congruence.
  - unfold except_Exception. destruct (is_Exception e') eqn:Ee.
    + cbn. destruct (Hh e' (state_of (body s))) as [a ->]. discriminate.
    + rewrite E. intros [= <-]. exact Ee.
Qed.

Lemma raises_only_errors_of_outcome {A} (o : outcome A) :
  match o with Ret _ => true | Raise e => is_Exception e end = true ->
  raises_only_errors (of_outcome (St:=St) (Ev:=Ev) o).
Proof. intros H s e. cbn. intros ->. exact H. Qed.

Lemma raises_only_errors_for_each {A} (xs : list A) (body : A -> exec St Ev unit) :
  (forall x, In x xs -> raises_only_errors (body x)) ->
  raises_only_errors (for_each xs body).
Proof.
  induction xs as [|x xs IH]; intros H; cbn [for_each].
  - apply returns_raises_only_errors, returns_ret.
  - apply raises_only_errors_bind; [apply H; left; reflexivity|].
    intros _. apply IH. intros y Hy. apply H. right. exact Hy.
Qed.

(** ** What is emitted *)

Variable P : Ev -> Prop.

Lemma emits_only_ret {A} (a : A) : emits_only P (ret (St:=St) a).
Proof. intros s; constructor. Qed.

Lemma emits_only_raise {A} e : emits_only P (raise (St:=St) (A:=A) e).
Proof. intros s; constructor. Qed.

Lemma emits_only_gets {A} (g : St -> A) : emits_only P (gets g).
Proof. intros s; constructor. Qed.

Lemma emits_only_modify (g : St -> St) : emits_only P (modify g).
Proof. intros s; constructor. Qed.

Lemma emits_only_of_outcome {A} (o : outcome A) : emits_only P (of_outcome (St:=St) o).
Proof. intros s; constructor. Qed.

Lemma emits_only_emit (ev : Ev) : P ev -> emits_only P (emit (St:=St) ev).
Proof. intros H s; repeat constructor; exact H. Qed.

Lemma emits_only_await {A} (ev : Ev) (o : outcome A) :
  P ev -> emits_only P (await (St:=St) ev o).
Proof. intros H s; repeat constructor; exact H. Qed.

Lemma emits_only_bind {A B} (m : exec St Ev A) (k : A -> exec St Ev B) :
  emits_only P m -> (forall a, emits_only P (k a)) -> emits_only P (bind m k).
Proof.
  intros Hm Hk s. rewrite run_bind.
  destruct (result_of (m s)) as [a|e]; cbn.
  - apply Forall_app. split; [apply Hm | apply Hk].
  - apply Hm.
Qed.

Lemma emits_only_try_except {A} (body : exec St Ev A) handlers :
  emits_only P body ->
  (forall e h, handlers e = Some h -> emits_only P h) ->
  emits_only P (try_except body handlers).
Proof.
  intros Hb Hh s. rewrite run_try_except.
  destruct (result_of (body s)) as [a|e]; [apply Hb|].
  destruct (handlers e) as [h|] eqn:E; [|apply Hb].
  cbn. apply Forall_app. split; [apply Hb | apply (Hh _ _ E)].
Qed.

Lemma emits_only_except_Exception {A} (h : exc -> exec St Ev A) :
  (forall e, emits_only P (h e)) ->
  forall e h', except_Exception h e = Some h' -> emits_only P h'.
Proof.
  intros H e h'. unfold except_Exception.
  destruct (is_Exception e); [|discriminate].
  intros [= <-]. apply H.
Qed.

Lemma emits_only_for_each {A} (xs : list A) (body : A -> exec St Ev unit) :
  (forall x, emits_only P (body x)) -> emits_only P (for_each xs body).
Proof.
  intros H. induction xs as [|x xs IH]; cbn [for_each].
  - apply emits_only_ret.
  - apply emits_only_bind; [apply H | intros _; exact IH].
Qed.
End Containment.

(** [relational Hr Ht] walks a computation built from the monad's
    operations to show that it moves the state along a relation with
    reflexivity [Hr] and transitivity [Ht]; what is left are the steps
    that change the state.  Facts about the functions called on the way
    are taken from the hint database [moves]. *)
Create HintDb moves.

Ltac relational Hr Ht :=
  repeat first
    [ solve [auto with moves]
    | apply (moves_bind _ Ht); [|intros ?]
    | apply (moves_try_except _ Ht); [|apply moves_except_Exception; intros ?]
    | apply (moves_for_each _ Hr Ht); intros ? _
    | apply (moves_gets _ Hr)
    | apply (moves_emit _ Hr)
    | apply (moves_await _ Hr)
    | apply (moves_of_outcome _ Hr)
    | apply (moves_raise _ Hr)
    | apply (moves_ret _ Hr)
    | match goal with
      | |- moves _ (match ?x with _ => _ end) => destruct x
      end ].

Create HintDb emits.
#[export] Hint Resolve emits_only_ret emits_only_raise emits_only_gets
  emits_only_modify emits_only_of_outcome emits_only_for_each : emits.

Section Preserving.
Context {St Ev : Type}.
Variable I : St -> Prop.
Variable P : Ev -> Prop.

Lemma preserves_ret {A} (a : A) : preserves I P (ret a).
Proof. intros s H. split; [exact H|constructor]. Qed.

Lemma preserves_raise {A} e : preserves I P (raise (A:=A) e).
Proof. intros s H. split; [exact H|constructor]. Qed.

Lemma preserves_gets {A} (g : St -> A) : preserves I P (gets g).
Proof. intros s H. split; [exact H|constructor]. Qed.

Lemma preserves_of_outcome {A} (o : outcome A) : preserves I P (of_outcome o).
Proof. intros s H. split; [exact H|constructor]. Qed.

Lemma preserves_emit (ev : Ev) : P ev -> preserves I P (emit ev).
Proof. intros Hp s H. split; [exact H|repeat constructor; exact Hp]. Qed.

Lemma preserves_await {A} (ev : Ev) (o : outcome A) :
  P ev -> preserves I P (await ev o).
Proof. intros Hp s H. split; [exact H|repeat constructor; exact Hp]. Qed.

Lemma preserves_modify (g : St -> St) :
  (forall s, I s -> I (g s)) -> preserves I P (modify g).
Proof. intros Hg s H. split; [apply Hg, H|constructor]. Qed.

Lemma preserves_bind {A B} (m : exec St Ev A) (k : A -> exec St Ev B) :
  preserves I P m -> (forall a, preserves I P (k a)) -> preserves I P (bind m k).
Proof.
  intros Hm Hk s H. rewrite run_bind. destruct (Hm s H) as [H1 Ht1].
  destruct (result_of (m s)) as [a|e]; cbn; [|split; assumption].
  destruct (Hk a _ H1) as [H2 Ht2]. split; [exact H2|].
  apply Forall_app. split; assumption.
Qed.

Lemma preserves_try_except {A} (body : exec St Ev A) handlers :
  preserves I P body ->
  (forall e h, handlers e = Some h -> preserves I P h) ->
  preserves I P (try_except body handlers).
Proof.
  intros Hb Hh s H. rewrite run_try_except. destruct (Hb s H) as [H1 Ht1].
  destruct (result_of (body s)) as [a|e]; [split; assumption|].
  destruct (handlers e) as [h|] eqn:E; [|split; assumption].
  destruct (Hh _ _ E _ H1) as [H2 Ht2]. cbn. split; [exact H2|].
  apply Forall_app. split; assumption.
Qed.

Lemma preserves_except_Exception {A} (h : exc -> exec St Ev A) :
  (forall e, preserves I P (h e)) ->
  forall e h', except_Exception h e = Some h' -> preserves I P h'.
Proof.
  intros H e h'. unfold except_Exception.
  destruct (is_Exception e); [|discriminate].
  intros [= <-]. apply H.
Qed.
End Preserving.

Create HintDb preserving.
#[export] Hint Resolve preserves_ret preserves_raise preserves_gets
  preserves_of_outcome : preserving.

(** [preserving] walks a computation built from the monad's operations to
    show that it keeps an invariant and performs only effects of a kind;
    what is left are the steps that change the state, the effects, and the
    steps that depend on the state. *)
Ltac preserving :=
  repeat first
    [ solve [auto with preserving]
    | apply preserves_bind; [|intros ?]
    | apply preserves_try_except; [|apply preserves_except_Exception; intros ?]
    | apply preserves_emit; intros ?; discriminate
    | apply preserves_await; intros ?; discriminate
    | apply preserves_modify; intros ? ?; assumption
    | match goal with
      | |- preserves _ _ (match ?x with _ => _ end) => destruct x
      end ].

(** * Further facts about the polling agent *)
Module MarketSentimentMore.
Import MarketSentiment MarketSentimentFacts.

(** ** The watermark only advances *)

Lemma py_gt_trans a b c :
  py_gt a b = true -> py_gt b c = true -> py_gt a c = true.
Proof.
  destruct a as [x| | |], b as [y| | |], c as [z| | |]; cbn; try congruence.
  rewrite !negb_true_iff. intros Hxy Hyz.
  destruct (Qle_bool x z) eqn:Hxz; [|reflexivity]. exfalso.
  apply Qle_bool_iff in Hxz.
  assert (Hyx : (y < x)%Q).
  { apply Qnot_le_lt. intros H. apply Qle_bool_iff in H. congruence. }
  assert (Hzy : (z < y)%Q).
  { apply Qnot_le_lt. intros H. apply Qle_bool_iff in H. congruence. }
  apply (Qlt_not_le z x); [|exact Hxz].
  eapply Qlt_trans; eassumption.
Qed.

Lemma advanced_refl w : advanced w w.
Proof. left. reflexivity. Qed.

Lemma advanced_trans w1 w2 w3 :
  advanced w1 w2 -> advanced w2 w3 -> advanced w1 w3.
Proof.
  intros [->|H12] [->|H23].
  - left. reflexivity.
  - right. exact H23.
  - right. exact H12.
  - right. eapply py_gt_trans; eassumption.
Qed.

Lemma advanced_py_max w t : advanced w (py_max w t).
Proof.
  unfold py_max. destruct (py_gt t w) eqn:E; [right; exact E | left; reflexivity].
Qed.

Lemma watermark_advances_refl a : watermark_advances a a.
Proof. apply advanced_refl. Qed.

Lemma watermark_advances_trans a1 a2 a3 :
  watermark_advances a1 a2 -> watermark_advances a2 a3 -> watermark_advances a1 a3.
Proof. apply advanced_trans. Qed.

Lemma handle_message_watermark message e :
  moves watermark_advances (handle_message message e).
Proof.
  intros a. unfold watermark_advances.
  rewrite handle_message_keeps_watermark. apply advanced_refl.
Qed.

#[export] Hint Resolve handle_message_watermark : moves.

Lemma poll_cycle_watermark import_time resp :
  moves watermark_advances (poll_cycle import_time resp).
Proof.
  unfold poll_cycle, poll_item.
  relational watermark_advances_refl watermark_advances_trans.
  apply moves_modify. intros s. apply advanced_py_max.
Qed.

#[export] Hint Resolve poll_cycle_watermark : moves.

Lemma start_polling_watermark import_time cycles :
  moves watermark_advances (_start_polling import_time cycles).
Proof.
  induction cycles as [|[resp nap] rest IH]; cbn [_start_polling];
    relational watermark_advances_refl watermark_advances_trans.
Qed.

(** X1.  Over any run of the polling loop, whatever the poll responses
    and the outcomes of the dispatches, and wherever it is cancelled, the
    watermark at the end is the watermark at the start or a value greater
    than it. *)
Theorem watermark_never_decreases import_time cycles a :
  advanced (last_message_timestamp a)
           (last_message_timestamp (state_of (_start_polling import_time cycles a))).
Proof. apply start_polling_watermark. Qed.

(** ** The loop and its exceptions *)

Ltac emitting :=
  repeat first
    [ solve [auto with emits]
    | apply emits_only_bind; [|intros ?]
    | apply emits_only_try_except; [|apply emits_only_except_Exception; intros ?]
    | apply emits_only_for_each; intros ?
    | apply emits_only_emit; reflexivity
    | apply emits_only_await; reflexivity
    | match goal with
      | |- emits_only _ (match ?x with _ => _ end) => destruct x
      end ].

Lemma process_message_no_cycle_sleep message llm :
  emits_only (fun e => is_cycle_sleep e = false) (_process_message message llm).
Proof.
  unfold _process_message, dict_getitem, new_list, read_list, list_extend.
  emitting.
Qed.

#[export] Hint Resolve process_message_no_cycle_sleep : emits.

Lemma handle_message_no_cycle_sleep message e :
  emits_only (fun e => is_cycle_sleep e = false) (handle_message message e).
Proof. unfold handle_message, session_post. emitting. Qed.

#[export] Hint Resolve handle_message_no_cycle_sleep : emits.

Lemma poll_cycle_no_cycle_sleep import_time resp :
  emits_only (fun e => is_cycle_sleep e = false) (poll_cycle import_time resp).
Proof. unfold poll_cycle, poll_item. emitting. Qed.

Lemma filter_none {A} (f : A -> bool) l :
  Forall (fun x => f x = false) l -> List.filter f l = [].
Proof.
  induction 1 as [|x l Hx _ IH]; [reflexivity|]. cbn. rewrite Hx. exact IH.
Qed.

Lemma handle_message_contains message e : contains_errors (handle_message message e).
Proof.
  unfold handle_message. apply contains_errors_try_except.
  intros e'. apply returns_emit.
Qed.

Lemma poll_cycle_contains import_time resp :
  contains_errors (poll_cycle import_time resp).
Proof.
  unfold poll_cycle. apply contains_errors_try_except.
  intros e'. apply returns_emit.
Qed.

Lemma start_polling_contains import_time cycles :
  contains_errors (_start_polling import_time cycles).
Proof.
  induction cycles as [|[resp nap] rest IH]; cbn [_start_polling].
  - apply contains_errors_returns, returns_ret.
  - apply contains_errors_bind; [apply poll_cycle_contains|]. intros _.
    apply contains_errors_bind; [|intros _; exact IH].
    intros s e. destruct nap; cbn; intros [= <-]. reflexivity.
Qed.

(** X2.  No [Exception] ever leaves the polling loop: whatever the
    requests, the records and the dispatches do, [_start_polling] can only
    be ended by an exception that is not an [Exception] (a cancellation). *)
Theorem polling_loop_contains_errors import_time cycles a e :
  result_of (_start_polling import_time cycles a) = Raise e ->
  is_Exception e = false.
Proof. apply start_polling_contains. Qed.

(** X2 at a concrete input: the task is cancelled while the reply is
    posted. *)
Lemma polling_loop_contains_errors_witness :
  result_of (_start_polling (Fin 0)
               [(Ret [mkItem (Accepted "p1" "hi" None None)
                             (mkEnv (awaited (Ret [Some "ok"]))
                                    (Raise (NonError "CancelledError")))],
                 Elapsed)]
               started)
  = Raise (NonError "CancelledError")
  /\ is_Exception (NonError "CancelledError") = false.
Proof.
  split; [reflexivity|].
  apply (polling_loop_contains_errors (Fin 0)
           [(Ret [mkItem (Accepted "p1" "hi" None None)
                         (mkEnv (awaited (Ret [Some "ok"]))
                                (Raise (NonError "CancelledError")))],
             Elapsed)]
           started (NonError "CancelledError")).
  reflexivity.
Defined.

Lemma poll_item_raises_only_errors import_time it :
  dispatch_completes (env it) = true ->
  raises_only_errors (poll_item import_time it).
Proof.
  intros H. unfold poll_item.
  apply raises_only_errors_bind.
  { apply raises_only_errors_of_outcome. destruct (raw it); reflexivity. }
  intros msg. apply returns_raises_only_errors.
  apply returns_bind; [apply handle_message_returns, H|].
  intros _. apply returns_modify.
Qed.

Lemma poll_cycle_returns import_time resp :
  cycle_catchable resp = true -> returns (poll_cycle import_time resp).
Proof.
  intros H. unfold poll_cycle.
  apply returns_try_except; [|intros e; apply returns_emit].
  intros a e. rewrite run_bind. cbn [gets result_of state_of trace_of fst snd].
  destruct (_session a) as [s|]; [|cbn; intros [= <-]; reflexivity].
  rewrite !run_bind. cbn [gets await result_of state_of trace_of fst snd].
  rewrite run_bind. cbn [await result_of state_of trace_of fst snd].
  destruct resp as [items|e']; cbn [cycle_catchable] in H.
  - apply raises_only_errors_for_each. intros it Hin.
    apply poll_item_raises_only_errors.
    rewrite forallb_forall in H. apply H, Hin.
  - intros [= <-]. exact H.
Qed.

Lemma poll_cycle_keeps_session import_time resp :
  keeps _session (poll_cycle import_time resp).
Proof.
  unfold poll_cycle, poll_item. frame.
  apply keeps_for_each. intros it. frame.
Qed.

(** X3.  The loop ends only by cancellation.  When no poll response and
    no await of a dispatch ends in a [BaseException], every cycle ends
    normally, failed or not, and is followed by one 5-second sleep: the
    loop runs the cycles up to the first sleep during which the task is
    cancelled and ends there with [CancelledError], the later cycles not
    being run; if no sleep is cancelled, it is still running after [n]
    poll responses and has slept [n] times. *)
Theorem polling_loop_keeps_running import_time cycles a :
  forallb (fun c => cycle_catchable c.1) cycles = true ->
  let r := _start_polling import_time cycles a in
  result_of r = cancellation cycles
  /\ r = _start_polling import_time (until_cancelled cycles) a
  /\ length (List.filter is_cycle_sleep (trace_of r))
     = length (until_cancelled cycles).
Proof.
  revert a. induction cycles as [|[resp nap] rest IH]; intros a H;
    [repeat split; reflexivity|].
  cbn [forallb fst] in H. apply andb_prop in H as [Hc Hrest].
  destruct (poll_cycle_returns import_time resp Hc a) as [[] Hr].
  pose proof (triple_eta (poll_cycle import_time resp a)) as Heta.
  rewrite Hr in Heta.
  assert (Hn : length (List.filter is_cycle_sleep
                         (trace_of (poll_cycle import_time resp a))) = 0).
  { rewrite (filter_none is_cycle_sleep _ (poll_cycle_no_cycle_sleep import_time resp a)).
    reflexivity. }
  cbn zeta. destruct nap; cbn [until_cancelled cancellation].
  - rewrite !(start_polling_cons import_time resp Elapsed _ a _ _ Heta).
    cbn [result_of trace_of state_of fst snd].
    destruct (IH (state_of (poll_cycle import_time resp a)) Hrest) as (IHr & IHe & IHn).
    cbn zeta in IHr, IHe, IHn.
    split; [exact IHr|]. split; [rewrite <- IHe; reflexivity|].
    rewrite List.filter_app, length_app, Hn.
    cbn [List.filter is_cycle_sleep length Nat.add].
    change (Qeq_bool 5 5) with true. cbn [length]. rewrite IHn. reflexivity.
  - rewrite !(start_polling_cons import_time resp Cancelled _ a _ _ Heta).
    cbn [result_of trace_of state_of fst snd].
    split; [reflexivity|]. split; [reflexivity|].
    rewrite List.filter_app, length_app, Hn.
    cbn [List.filter is_cycle_sleep length Nat.add].
    change (Qeq_bool 5 5) with true. reflexivity.
Qed.

(** X3 at a concrete input: a failed request, then a batch with a rejected
    record, after which the task is cancelled in its sleep; the third
    response is never asked for. *)
Lemma polling_loop_keeps_running_witness :
  let r := _start_polling (Fin 0)
             [(Raise (OtherError "ClientError"), Elapsed);
              (Ret [item_at 1; rejected_item], Cancelled);
              (Ret [], Elapsed)]
             started in
  result_of r = Raise (NonError "CancelledError")
  /\ r = _start_polling (Fin 0)
           [(Raise (OtherError "ClientError"), Elapsed);
            (Ret [item_at 1; rejected_item], Cancelled)]
           started
  /\ length (List.filter is_cycle_sleep (trace_of r)) = 2.
Proof.
  apply (polling_loop_keeps_running (Fin 0)
           [(Raise (OtherError "ClientError"), Elapsed);
            (Ret [item_at 1; rejected_item], Cancelled);
            (Ret [], Elapsed)]
           started).
  reflexivity.
Defined.

(** ** The conversation store across peers *)

Lemma process_message_state message llm a :
  let peer := Message.from_agent_id message in
  state_of (_process_message message llm a) =
  match llm with
  | Ret (c :: _) =>
      slice_copy peer (record_turns peer (turn_pair message c) (lazy_init peer a))
  | _ => lazy_init peer a
  end.
Proof.
  intros peer. destruct llm as [[|c cs]|e].
  - destruct (process_message_failure a message (Ret []) eq_refl) as [e He].
    exact (f_equal state_of He).
  - exact (f_equal state_of (process_message_success a message c cs)).
  - destruct (is_Exception e) eqn:He.
    + destruct (process_message_failure a message (Raise e) He) as [e' He'].
      exact (f_equal state_of He').
    + unfold peer, lazy_init.
      unfold _process_message, try_except, bind, dict_getitem, new_list, read_list,
        list_extend, gets, modify, emit, await, ret, raise, except_Exception.
      destruct (conversation_history a !! Message.from_agent_id message) eqn:E;
        do 3 (cbn; rewrite ?E, ?lookup_insert_eq, ?He); reflexivity.
Qed.

Lemma store_ok_lazy_init peer a : store_ok a -> store_ok (lazy_init peer a).
Proof.
  intros [Hwf Hinj]. split; [apply wf_lazy_init, Hwf|].
  unfold lazy_init. destruct (conversation_history a !! peer) eqn:E; [exact Hinj|].
  cbn. intros p q l.
  destruct (decide (peer = p)) as [<-|Hp], (decide (peer = q)) as [<-|Hq];
    rewrite ?lookup_insert_eq, ?lookup_insert_ne by done.
  - reflexivity.
  - intros [= <-] Hl. apply Hwf in Hl. lia.
  - intros Hl [= <-]. apply Hwf in Hl. lia.
  - apply Hinj.
Qed.

Lemma store_ok_record_turns peer turns a :
  store_ok a -> store_ok (record_turns peer turns a).
Proof.
  intros [Hwf Hinj]. split; [apply wf_record_turns, Hwf|].
  unfold record_turns. destruct (conversation_history a !! peer); exact Hinj.
Qed.

Lemma store_ok_slice_copy peer a : store_ok a -> store_ok (slice_copy peer a).
Proof.
  intros [Hwf Hinj]. split; [apply wf_slice_copy, Hwf|].
  unfold slice_copy. destruct (10 <? _)%nat; exact Hinj.
Qed.

Lemma stored_history_record_turns_other peer turns a q :
  store_ok a -> q <> peer ->
  stored_history (record_turns peer turns a) q = stored_history a q.
Proof.
  intros [Hwf Hinj] Hq. unfold record_turns, stored_history.
  destruct (conversation_history a !! peer) as [l|] eqn:E; [|reflexivity].
  cbn. destruct (conversation_history a !! q) as [l'|] eqn:E'; [|reflexivity].
  rewrite list_lookup_total_alter.
  destruct (decide _) as [[-> _]|_]; [|reflexivity].
  exfalso. apply Hq. eapply Hinj; eassumption.
Qed.

Lemma process_message_store message llm a :
  store_ok a ->
  store_ok (state_of (_process_message message llm a))
  /\ forall q, q <> Message.from_agent_id message ->
       stored_history (state_of (_process_message message llm a)) q =
       stored_history a q.
Proof.
  intros H. rewrite process_message_state.
  pose proof (store_ok_lazy_init (Message.from_agent_id message) a H) as H1.
  destruct llm as [[|c cs]|e].
  - split; [exact H1|]. intros q _. apply stored_history_lazy_init.
  - split.
    + apply store_ok_slice_copy, store_ok_record_turns, H1.
    + intros q Hq.
      rewrite stored_history_slice_copy
        by (apply wf_record_turns, wf_lazy_init, H).
      rewrite stored_history_record_turns_other by (exact H1 || exact Hq).
      apply stored_history_lazy_init.
  - split; [exact H1|]. intros q _. apply stored_history_lazy_init.
Qed.

Lemma store_ok_started : store_ok started.
Proof. split; intros p; intros; cbn in *; rewrite lookup_empty in *; discriminate. Qed.

(** X4.  On a sound store, [_process_message] keeps the store sound and
    touches no other peer: whatever the language model does, the stored
    history of every peer other than the sender is what it was. *)
Theorem process_message_isolates_peers message llm a q :
  store_ok a ->
  q <> Message.from_agent_id message ->
  store_ok (state_of (_process_message message llm a))
  /\ stored_history (state_of (_process_message message llm a)) q =
     stored_history a q.
Proof.
  intros H Hq. destruct (process_message_store message llm a H) as [H1 H2].
  split; [exact H1 | apply H2, Hq].
Qed.

(** X4 at a concrete input: after a message of [p1], a message of [p2] is
    handled, the client's call returning both times. *)
Lemma process_message_isolates_peers_witness :
  let a := after_messages [(Message.mk "p1" "hi" None (Fin 0), Ret [Some "ok"])]
                          started in
  let a' := state_of (_process_message (Message.mk "p2" "yo" None (Fin 3))
                        (awaited (Ret [Some "sure"])) a) in
  store_ok a' /\ stored_history a' "p1" = stored_history a "p1".
Proof.
  apply (process_message_isolates_peers (Message.mk "p2" "yo" None (Fin 3))
           (awaited (Ret [Some "sure"]))
           (after_messages [(Message.mk "p1" "hi" None (Fin 0), Ret [Some "ok"])]
                           started) "p1").
  - apply (process_message_store (Message.mk "p1" "hi" None (Fin 0))
             (awaited (Ret [Some "ok"])) started store_ok_started).
  - discriminate.
Defined.

(** ** The conversation store across the polling loop *)

Lemma store_kept_refl q a : store_kept q a a.
Proof. intros H. split; [exact H|reflexivity]. Qed.

Lemma store_kept_trans q a1 a2 a3 :
  store_kept q a1 a2 -> store_kept q a2 a3 -> store_kept q a1 a3.
Proof.
  intros H12 H23 H. destruct (H12 H) as [H2 E2]. destruct (H23 H2) as [H3 E3].
  split; [exact H3|congruence].
Qed.

Lemma store_sound_refl a : store_sound a a.
Proof. intros H. exact H. Qed.

Lemma store_sound_trans a1 a2 a3 :
  store_sound a1 a2 -> store_sound a2 a3 -> store_sound a1 a3.
Proof. unfold store_sound. auto. Qed.

Lemma process_message_store_sound message llm :
  moves store_sound (_process_message message llm).
Proof. intros a H. apply (process_message_store message llm a H). Qed.

#[export] Hint Resolve process_message_store_sound : moves.

Lemma handle_message_store_sound message e :
  moves store_sound (handle_message message e).
Proof.
  unfold handle_message, session_post.
  relational store_sound_refl store_sound_trans.
Qed.

#[export] Hint Resolve handle_message_store_sound : moves.

Lemma poll_cycle_store_sound import_time resp :
  moves store_sound (poll_cycle import_time resp).
Proof.
  unfold poll_cycle, poll_item.
  relational store_sound_refl store_sound_trans.
  apply moves_modify. intros s H. exact H.
Qed.

#[export] Hint Resolve poll_cycle_store_sound : moves.

Lemma start_polling_store_sound import_time cycles :
  moves store_sound (_start_polling import_time cycles).
Proof.
  induction cycles as [|[resp nap] rest IH]; cbn [_start_polling];
    relational store_sound_refl store_sound_trans.
Qed.

(** X5.  The polling loop keeps the conversation store sound: started on
    an agent whose dict entries point to distinct list objects of the
    heap, it leaves such an agent after any number of cycles, whatever
    the responses and the outcomes of the dispatches. *)
Theorem polling_loop_keeps_store_sound import_time cycles a :
  store_ok a -> store_ok (state_of (_start_polling import_time cycles a)).
Proof. apply start_polling_store_sound. Qed.

(** X5 at a concrete input: a started agent polls two batches. *)
Lemma polling_loop_keeps_store_sound_witness :
  store_ok (state_of (_start_polling (Fin 0)
                        [(Ret [item_at 1; item_at 2], Elapsed);
                         (Ret [rejected_item], Cancelled)] started)).
Proof.
  apply (polling_loop_keeps_store_sound (Fin 0)
           [(Ret [item_at 1; item_at 2], Elapsed);
            (Ret [rejected_item], Cancelled)] started).
  exact store_ok_started.
Defined.

Lemma handle_message_store_kept q message e :
  q <> Message.from_agent_id message ->
  moves (store_kept q) (handle_message message e).
Proof.
  intros Hq.
  assert (Hp : forall llm, moves (store_kept q) (_process_message message llm)).
  { intros llm a H. destruct (process_message_store message llm a H) as [H1 H2].
    split; [exact H1 | apply H2, Hq]. }
  unfold handle_message, session_post.
  relational (store_kept_refl q) (store_kept_trans q).
Qed.

Lemma poll_item_store_kept import_time q it :
  sender it <> Some q -> moves (store_kept q) (poll_item import_time it).
Proof.
  intros Hs a. unfold poll_item. rewrite run_bind.
  unfold sender in Hs.
  destruct (raw it) as [from content conv ts|];
    cbn [new_Message of_outcome result_of state_of trace_of fst snd];
    [|apply store_kept_refl].
  revert a.
  change (moves (store_kept q)
            (handle_message (Message.mk from content conv (default import_time ts))
               (env it) >>
             modify (set_last_message_timestamp
                       (fun w => py_max w
                          (Message.timestamp
                             (Message.mk from content conv (default import_time ts))))))).
  apply (moves_bind _ (store_kept_trans q)).
  - apply handle_message_store_kept. cbn. congruence.
  - intros _. apply moves_modify. intros s H. split; [exact H|reflexivity].
Qed.

Lemma poll_cycle_state import_time resp a :
  state_of (poll_cycle import_time resp a) =
  match _session a, resp with
  | Some _, Ret items => state_of (for_each items (poll_item import_time) a)
  | _, _ => a
  end.
Proof.
  destruct (_session a) as [s|] eqn:Hs.
  - destruct resp as [items|e].
    + rewrite (poll_cycle_items import_time a s items Hs). cbn zeta.
      destruct (result_of _) as [[]|e]; [reflexivity|].
      destruct (is_Exception e); reflexivity.
    + unfold poll_cycle, try_except, bind, gets, await, except_Exception.
      rewrite Hs. cbn. destruct (is_Exception e); reflexivity.
  - rewrite (poll_cycle_no_session import_time a resp Hs). reflexivity.
Qed.

Lemma poll_cycle_store_kept import_time q resp :
  silent q resp -> moves (store_kept q) (poll_cycle import_time resp).
Proof.
  intros Hq a. rewrite poll_cycle_state.
  destruct (_session a); [|apply store_kept_refl].
  destruct resp as [items|e]; [|apply store_kept_refl].
  apply (moves_for_each _ (store_kept_refl q) (store_kept_trans q)).
  intros it Hin. apply poll_item_store_kept.
  cbn in Hq. rewrite List.Forall_forall in Hq. apply Hq, Hin.
Qed.

Lemma start_polling_store_kept import_time q cycles :
  Forall (fun c => silent q c.1) cycles ->
  moves (store_kept q) (_start_polling import_time cycles).
Proof.
  induction 1 as [|[resp nap] rest Hresp _ IH]; cbn [_start_polling].
  - apply moves_ret, store_kept_refl.
  - apply (moves_bind _ (store_kept_trans q));
      [apply poll_cycle_store_kept, Hresp|]. intros _.
    apply (moves_bind _ (store_kept_trans q));
      [apply moves_await, store_kept_refl|]. intros _. exact IH.
Qed.

(** X6.  Peers are isolated across the polling loop: on a sound store,
    the stored history of a peer from whom no polled record comes is the
    same after any number of cycles, whatever the other peers send and
    whatever the language model answers. *)
Theorem polling_loop_isolates_peers import_time q cycles a :
  store_ok a ->
  Forall (fun c => silent q c.1) cycles ->
  stored_history (state_of (_start_polling import_time cycles a)) q =
  stored_history a q.
Proof.
  intros H Hq. apply (start_polling_store_kept import_time q cycles Hq a H).
Qed.

(** X6 at a concrete input: [p2] has an entry in the store; two batches
    from [p1] are polled. *)
Lemma polling_loop_isolates_peers_witness :
  let a := after_messages [(Message.mk "p2" "yo" None (Fin 0), Ret [Some "sure"])]
                          started in
  stored_history
    (state_of (_start_polling (Fin 0)
                 [(Ret [item_at 1; item_at 2], Elapsed); (Ret [item_at 3], Elapsed)] a))
    "p2"
  = stored_history a "p2".
Proof.
  apply (polling_loop_isolates_peers (Fin 0) "p2"
           [(Ret [item_at 1; item_at 2], Elapsed); (Ret [item_at 3], Elapsed)]
           (after_messages [(Message.mk "p2" "yo" None (Fin 0), Ret [Some "sure"])]
                           started)).
  - apply (process_message_store (Message.mk "p2" "yo" None (Fin 0))
             (awaited (Ret [Some "sure"])) started store_ok_started).
  - repeat constructor; discriminate.
Defined.

(** ** The conversation store and the client the agent builds *)

Lemma history_kept_refl a : history_kept a a.
Proof. intros q. reflexivity. Qed.

Lemma history_kept_trans a1 a2 a3 :
  history_kept a1 a2 -> history_kept a2 a3 -> history_kept a1 a3.
Proof. intros H12 H23 q. rewrite H23. apply H12. Qed.

Lemma process_message_history_kept message call :
  moves history_kept (_process_message message (awaited call)).
Proof.
  intros a q. rewrite process_message_state.
  destruct call as [c|e]; cbn [awaited]; apply stored_history_lazy_init.
Qed.

Lemma handle_message_history_kept message call post :
  moves history_kept (handle_message message (mkEnv (awaited call) post)).
Proof.
  pose proof (process_message_history_kept message call) as Hp.
  unfold handle_message, session_post. cbn [llm_result post_result].
  relational history_kept_refl history_kept_trans.
Qed.

Lemma poll_item_history_kept import_time it :
  moves history_kept (poll_item import_time (through_client it)).
Proof.
  pose proof (fun m => handle_message_history_kept m (llm_result (env it))
                         (post_result (env it))) as Hh.
  unfold poll_item, through_client. cbn [raw env].
  relational history_kept_refl history_kept_trans.
  apply moves_modify. intros ? q. reflexivity.
Qed.

Lemma poll_cycle_history_kept import_time c :
  moves history_kept (poll_cycle import_time (polled_through_client c).1).
Proof.
  intros a. rewrite poll_cycle_state.
  destruct (_session a); [|apply history_kept_refl].
  destruct c as [[items|e] nap]; cbn [polled_through_client fst];
    [|apply history_kept_refl].
  apply (moves_for_each _ history_kept_refl history_kept_trans).
  intros it [it0 [<- _]]%List.in_map_iff. apply poll_item_history_kept.
Qed.

Lemma start_polling_history_kept import_time cycles :
  moves history_kept (_start_polling import_time (map polled_through_client cycles)).
Proof.
  induction cycles as [|c rest IH]; cbn [map].
  - apply moves_ret, history_kept_refl.
  - pose proof (poll_cycle_history_kept import_time c) as Hc.
    destruct (polled_through_client c) as [resp nap]. cbn [fst] in Hc.
    cbn [_start_polling].
    relational history_kept_refl history_kept_trans.
Qed.

Lemma after_messages_history_kept calls : forall a,
  history_kept a (after_messages calls a).
Proof.
  induction calls as [|[m call] calls IH]; intros a; [apply history_kept_refl|].
  unfold after_messages. cbn [fold_left fst snd].
  eapply history_kept_trans; [apply (process_message_history_kept m call a)|].
  apply IH.
Qed.



(** ** Replies *)

Lemma lazy_init_session peer a : _session (lazy_init peer a) = _session a.
Proof. unfold lazy_init. destruct (_ !! _); reflexivity. Qed.

Lemma lazy_init_url peer a : api_url (lazy_init peer a) = api_url a.
Proof. unfold lazy_init. destruct (_ !! _); reflexivity. Qed.

Lemma str_or_nonempty x d : String.eqb d "" = false -> String.eqb (str_or x d) "" = false.
Proof.
  intros Hd. unfold str_or. destruct x as [s|]; [|exact Hd].
  destruct (String.eqb s "") eqn:E; [exact Hd|exact E].
Qed.

Lemma reply_to_nonempty llm : String.eqb (reply_to llm) "" = false.
Proof.
  destruct llm as [[|c cs]|e]; cbn [reply_to]; try reflexivity.
  apply str_or_nonempty. reflexivity.
Qed.

(** what [_process_message] does when no [BaseException] cuts it short *)
Lemma process_message_catchable message llm a :
  catchable llm = true ->
  exists t,
    _process_message message llm a =
      (state_of (_process_message message llm a), t, Ret (reply_to llm))
    /\ List.filter is_request t = []
    /\ List.filter is_completion t = [ChatCompletion (prompt a message)].
Proof.
  intros H.
  assert (Hx : exists t, trace_of (_process_message message llm a) = t
             /\ result_of (_process_message message llm a) = Ret (reply_to llm)
             /\ List.filter is_request t = []
             /\ List.filter is_completion t = [ChatCompletion (prompt a message)]).
  { destruct llm as [[|c cs]|e].
    - destruct (process_message_failure a message (Ret []) eq_refl) as [e He].
      eexists. split; [exact (f_equal trace_of He)|].
      split; [exact (f_equal result_of He)|]. split; reflexivity.
    - pose proof (process_message_success a message c cs) as He. cbn zeta in He.
      eexists. split; [exact (f_equal trace_of He)|].
      split; [exact (f_equal result_of He)|]. split; reflexivity.
    - destruct (process_message_failure a message (Raise e) H) as [e' He].
      eexists. split; [exact (f_equal trace_of He)|].
      split; [exact (f_equal result_of He)|]. split; reflexivity. }
  destruct Hx as (t & Ht & Hr & Hq & Hc). exists t.
  split; [|split; assumption].
  rewrite <- Ht, <- Hr. apply triple_eta.
Qed.

Lemma session_post_run to text conv post a s :
  _session a = Some s ->
  session_post to text conv post a =
  (a, [HttpPost (String.append (api_url a) "/messages") to text conv], post).
Proof.
  intros Hs. unfold session_post, bind, gets, await. rewrite Hs. cbn.
  destruct post; reflexivity.
Qed.

Lemma session_post_no_session to text conv post a :
  _session a = None ->
  session_post to text conv post a = (a, [], Raise AttributeError).
Proof. intros Hs. unfold session_post, bind, gets, raise. rewrite Hs. reflexivity. Qed.

(** the trace of [handle_message] when the language-model call is not cut
    short: the log line, what [_process_message] does, then the POST if a
    session exists, then the log line of a caught error *)
Lemma handle_message_trace message llm post a :
  catchable llm = true ->
  exists t,
    List.filter is_request t = []
    /\ List.filter is_completion t = [ChatCompletion (prompt a message)]
    /\ trace_of (handle_message message (mkEnv llm post) a) =
       Print (LReceived message) :: t ++
       match _session a with
       | Some _ =>
           answer a message (reply_to llm) ::
           match post with
           | Raise e => if is_Exception e then [Print (LErrorHandling e)] else []
           | Ret _ => []
           end
       | None => [Print (LErrorHandling AttributeError)]
       end
    /\ result_of (handle_message message (mkEnv llm post) a) =
       match _session a, post with
       | Some _, Raise e => if is_Exception e then Ret tt else Raise e
       | _, _ => Ret tt
       end.
Proof.
  intros H.
  destruct (process_message_catchable message llm a H) as (t & Hp & Hq & Hc).
  exists t. split; [exact Hq|]. split; [exact Hc|].
  pose proof (process_message_keeps_session message llm a) as Hs.
  pose proof (process_message_keeps_url message llm a) as Hu.
  set (a1 := state_of (_process_message message llm a)) in *.
  unfold handle_message. rewrite run_try_except.
  rewrite run_bind. cbn [emit result_of state_of trace_of fst snd llm_result post_result].
  rewrite run_bind, Hp. cbn [result_of state_of trace_of fst snd].
  rewrite reply_to_nonempty.
  unfold answer. rewrite <- Hu, <- Hs.
  destruct (_session a1) as [s|] eqn:Es.
  - rewrite (session_post_run _ _ _ post a1 s Es).
    cbn [result_of state_of trace_of fst snd].
    destruct post as [[]|e]; cbn [result_of state_of trace_of fst snd app].
    + split; reflexivity.
    + unfold except_Exception. destruct (is_Exception e);
        cbn [emit result_of state_of trace_of fst snd app]; rewrite <- ?app_assoc;
        split; reflexivity.
  - rewrite (session_post_no_session _ _ _ post a1 Es).
    cbn [result_of state_of trace_of fst snd app except_Exception is_Exception emit].
    rewrite app_nil_r. split; reflexivity.
Qed.

(** X7.  With a session, every message handled is answered exactly once:
    when the language-model call is not cut short, [handle_message] makes
    one request, a POST to the sender of the message, in the conversation
    of the message, carrying the model's reply, or the apology when the
    call failed; and it calls the model exactly once, with the system
    prompt, the stored history of the sender and the new message. *)
Theorem every_message_is_answered_once message llm post a s :
  catchable llm = true ->
  _session a = Some s ->
  List.filter is_request (trace_of (handle_message message (mkEnv llm post) a))
  = [answer a message (reply_to llm)]
  /\ List.filter is_completion (trace_of (handle_message message (mkEnv llm post) a))
     = [ChatCompletion (prompt a message)].
Proof.
  intros H Hs.
  destruct (handle_message_trace message llm post a H) as (t & Hq & Hc & -> & _).
  rewrite Hs. cbn [List.filter is_request is_completion].
  rewrite !List.filter_app, Hq, Hc. cbn [List.filter is_request is_completion app].
  destruct post as [[]|e]; [| destruct (is_Exception e)]; split; reflexivity.
Qed.

(** X7 at a concrete input: the language-model call fails and the apology
    is posted. *)
Lemma every_message_is_answered_once_witness :
  List.filter is_request
    (trace_of (handle_message (Message.mk "p1" "hi" (Some "c-9") (Fin 1))
                 (mkEnv (Raise (OtherError "RateLimitError")) (Ret tt)) started))
  = [HttpPost "http://localhost:3000/messages" "p1"
       "Sorry, I encountered an error processing your message." (Some "c-9")].
Proof.
  apply (every_message_is_answered_once (Message.mk "p1" "hi" (Some "c-9") (Fin 1))
           (Raise (OtherError "RateLimitError")) (Ret tt) started 0);
    reflexivity.
Defined.

(** X8.  Without a session (the agent was stopped, or never started) a
    handled message is still processed, the language model being called
    once, but no request is made: the reply is lost, the
    [AttributeError] of the missing session is logged and not raised, and
    the agent is left as [_process_message] left it. *)
Theorem reply_lost_without_session message llm post a :
  catchable llm = true ->
  _session a = None ->
  let r := handle_message message (mkEnv llm post) a in
  result_of r = Ret tt
  /\ List.filter is_request (trace_of r) = []
  /\ List.filter is_completion (trace_of r) = [ChatCompletion (prompt a message)]
  /\ In (Print (LErrorHandling AttributeError)) (trace_of r)
  /\ state_of r = state_of (_process_message message llm a).
Proof.
  intros Hl Hs r. subst r.
  destruct (handle_message_trace message llm post a Hl) as (t & Hq & Hc & Ht & Hr).
  rewrite Hs in Ht, Hr. rewrite Ht, Hr.
  cbn [List.filter is_request is_completion].
  rewrite !List.filter_app, Hq, Hc.
  split; [reflexivity|]. split; [reflexivity|]. split; [reflexivity|].
  split.
  { right. apply in_or_app. right. left. reflexivity. }
  destruct (process_message_catchable message llm a Hl) as (t' & Hp & _ & _).
  unfold handle_message. rewrite run_try_except, run_bind.
  cbn [emit result_of state_of trace_of fst snd llm_result post_result].
  rewrite run_bind, Hp. cbn [result_of state_of trace_of fst snd].
  rewrite reply_to_nonempty.
  assert (Es : _session (state_of (_process_message message llm a)) = None).
  { rewrite process_message_keeps_session. exact Hs. }
  rewrite (session_post_no_session _ _ _ post _ Es).
  reflexivity.
Qed.

(** X8 at a concrete input: an agent that was never started. *)
Lemma reply_lost_without_session_witness :
  let r := handle_message (Message.mk "p1" "hi" None (Fin 1))
             (mkEnv (awaited (Ret [Some "ok"])) (Ret tt))
             (__init__ "key" "http://localhost:3000") in
  result_of r = Ret tt
  /\ List.filter is_request (trace_of r) = []
  /\ List.filter is_completion (trace_of r)
     = [ChatCompletion (prompt (__init__ "key" "http://localhost:3000")
                               (Message.mk "p1" "hi" None (Fin 1)))].
Proof.
  destruct (reply_lost_without_session (Message.mk "p1" "hi" None (Fin 1))
              (awaited (Ret [Some "ok"])) (Ret tt)
              (__init__ "key" "http://localhost:3000") eq_refl eq_refl)
    as (H1 & H2 & H3 & _).
  repeat split; assumption.
Defined.

(** X9.  The reply of the language model is never used: with the client
    the agent builds, whether its call returns a completion or raises an
    [Exception], [_process_message] logs the error, returns the fixed
    apology and records nothing, and on a started agent the one request
    [handle_message] makes is the POST of that apology to the sender. *)
Theorem model_reply_never_used message call post a s :
  catchable call = true ->
  _session a = Some s ->
  _process_message message (awaited call) a =
    (lazy_init (Message.from_agent_id message) a,
     [Sleep (1 # 2); ChatCompletion (prompt a message);
      Print (LErrorProcessing (client_error call))],
     Ret "Sorry, I encountered an error processing your message.")
  /\ List.filter is_request
       (trace_of (handle_message message (mkEnv (awaited call) post) a))
     = [answer a message "Sorry, I encountered an error processing your message."].
Proof.
  intros Hc Hs.
  assert (Hl : catchable (awaited call) = true).
  { destruct call; [reflexivity|exact Hc]. }
  split.
  - assert (Hp : prompt (lazy_init (Message.from_agent_id message) a) message
                 = prompt a message).
    { unfold prompt. by rewrite stored_history_lazy_init. }
    rewrite <- Hp. clear Hp.
    unfold prompt, stored_history, lazy_init.
    unfold _process_message, try_except, bind, dict_getitem, new_list, read_list,
      list_extend, gets, modify, emit, await, ret, raise, except_Exception.
    destruct (conversation_history a !! Message.from_agent_id message) eqn:E; cbn.
    + rewrite E; cbn. destruct call as [c|e]; cbn in *; [reflexivity|].
      rewrite Hc. reflexivity.
    + rewrite !lookup_insert_eq; cbn. destruct call as [c|e]; cbn in *; [reflexivity|].
      rewrite Hc. reflexivity.
  - destruct (handle_message_trace message (awaited call) post a Hl)
      as (t & Hq & _ & -> & _).
    rewrite Hs. cbn [List.filter is_request].
    rewrite !List.filter_app, Hq.
    assert (Hr : reply_to (awaited call)
                 = "Sorry, I encountered an error processing your message.").
    { destruct call; reflexivity. }
    rewrite Hr. cbn [List.filter is_request app answer].
    destruct post as [[]|e]; [| destruct (is_Exception e)]; reflexivity.
Qed.

(** X9 at a concrete input: the call of the client returns a
    completion. *)
Lemma model_reply_never_used_witness :
  result_of (_process_message (Message.mk "p1" "hi" None (Fin 1))
               (awaited (Ret [Some "Markets are calm."])) started)
  = Ret "Sorry, I encountered an error processing your message.".
Proof.
  destruct (model_reply_never_used (Message.mk "p1" "hi" None (Fin 1))
              (Ret [Some "Markets are calm."]) (Ret tt) started 0 eq_refl eq_refl)
    as [H _].
  exact (f_equal result_of H).
Defined.

(** ** Polling without a session *)

(** X10.  Without a session (before [start], after [stop]) the polling
    loop makes no request and changes nothing in the agent: each cycle
    logs the [AttributeError] of the missing session and sleeps 5
    seconds, until a sleep is cancelled. *)
Theorem polling_without_session_is_idle import_time cycles a :
  _session a = None ->
  _start_polling import_time cycles a =
  (a,
   flat_map (fun _ => [Print (LErrorPolling AttributeError); Sleep 5])
            (until_cancelled cycles),
   cancellation cycles).
Proof.
  intros Hs. induction cycles as [|[resp nap] rest IH]; [reflexivity|].
  rewrite (start_polling_cons import_time resp nap rest a _ _
             (poll_cycle_no_session import_time a resp Hs)).
  destruct nap; [rewrite IH|]; reflexivity.
Qed.

(** X10 at a concrete input: an agent that was never started. *)
Lemma polling_without_session_is_idle_witness :
  _start_polling (Fin 0) [(Ret [item_at 1], Elapsed); (Ret [], Elapsed)]
                 (__init__ "key" "http://localhost:3000")
  = (__init__ "key" "http://localhost:3000",
     [Print (LErrorPolling AttributeError); Sleep 5;
      Print (LErrorPolling AttributeError); Sleep 5],
     Ret tt).
Proof.
  apply (polling_without_session_is_idle (Fin 0)
           [(Ret [item_at 1], Elapsed); (Ret [], Elapsed)]
           (__init__ "key" "http://localhost:3000")).
  reflexivity.
Defined.

(** ** Order of dispatch *)

Lemma process_message_not_received message llm :
  emits_only (fun e => is_received e = false) (_process_message message llm).
Proof.
  unfold _process_message, dict_getitem, new_list, read_list, list_extend.
  emitting.
Qed.

#[export] Hint Resolve process_message_not_received : emits.

Lemma handle_message_received message e a :
  List.filter is_received (trace_of (handle_message message e a)) =
  [Print (LReceived message)].
Proof.
  unfold handle_message. rewrite run_try_except, run_bind.
  cbn [emit result_of state_of trace_of fst snd].
  set (rest := bind (_process_message message (llm_result e)) _).
  assert (Hrest : emits_only (fun e => is_received e = false) rest).
  { unfold rest, session_post. emitting. }
  specialize (Hrest a).
  destruct (result_of (rest a)) as [[]|e'];
    cbn [result_of state_of trace_of fst snd app List.filter is_received].
  - rewrite (filter_none _ _ Hrest). reflexivity.
  - unfold except_Exception. destruct (is_Exception e');
      cbn [emit result_of state_of trace_of fst snd app List.filter is_received].
    + rewrite List.filter_app, (filter_none _ _ Hrest). reflexivity.
    + rewrite (filter_none _ _ Hrest). reflexivity.
Qed.

Lemma process_message_cut_short message x a :
  is_Exception x = false ->
  result_of (_process_message message (Raise x) a) = Raise x.
Proof.
  intros Hx.
  unfold _process_message, try_except, bind, dict_getitem, new_list, read_list,
    list_extend, gets, modify, emit, await, ret, raise, except_Exception.
  destruct (conversation_history a !! Message.from_agent_id message) eqn:E;
    do 3 (cbn; rewrite ?E, ?lookup_insert_eq, ?Hx); reflexivity.
Qed.

Lemma handle_message_cut_short message e a s :
  _session a = Some s ->
  dispatch_completes e = false ->
  exists x, result_of (handle_message message e a) = Raise x.
Proof.
  intros Hs Hd. destruct e as [llm post]. unfold dispatch_completes in Hd.
  cbn [llm_result post_result] in Hd.
  destruct (catchable llm) eqn:Hl.
  - destruct (handle_message_trace message llm post a Hl) as (t & _ & _ & _ & Hr).
    rewrite Hs in Hr. cbn [andb] in Hd.
    destruct post as [[]|x]; cbn [catchable] in Hd; [discriminate|].
    rewrite Hd in Hr. exists x. exact Hr.
  - destruct llm as [c|x]; cbn [catchable] in Hl; [discriminate|].
    exists x. unfold handle_message. rewrite run_try_except, run_bind.
    cbn [emit result_of state_of trace_of fst snd llm_result].
    rewrite run_bind, (process_message_cut_short message x a Hl).
    cbn [result_of state_of trace_of fst snd]. unfold except_Exception.
    rewrite Hl. cbn [result_of snd]. reflexivity.
Qed.

Lemma poll_item_keeps_session import_time it : keeps _session (poll_item import_time it).
Proof. unfold poll_item. frame. Qed.

Lemma for_each_dispatched import_time items : forall a s,
  _session a = Some s ->
  List.filter is_received (trace_of (for_each items (poll_item import_time) a)) =
  map (fun m => Print (LReceived m)) (dispatched import_time items).
Proof.
  induction items as [|it rest IH]; intros a s Hs; [reflexivity|].
  cbn [for_each dispatched]. rewrite run_bind.
  pose proof (poll_item_keeps_session import_time it a) as Hk.
  unfold poll_item in *. rewrite run_bind in *.
  destruct (new_Message import_time (raw it)) as [m|x];
    cbn [of_outcome result_of state_of trace_of fst snd app] in *; [|reflexivity].
  rewrite run_bind in *.
  destruct (dispatch_completes (env it)) eqn:Hd.
  - destruct (handle_message_returns m (env it) Hd a) as [[] Hr].
    rewrite Hr in *. cbn [modify result_of state_of trace_of fst snd app] in *.
    rewrite app_nil_r, List.filter_app, handle_message_received.
    cbn [app map]. f_equal. apply (IH _ s). congruence.
  - destruct (handle_message_cut_short m (env it) a s Hs Hd) as [x Hr].
    rewrite Hr. cbn [result_of state_of trace_of fst snd].
    rewrite handle_message_received. reflexivity.
Qed.

Lemma poll_cycle_received import_time items a s :
  _session a = Some s ->
  List.filter is_received (trace_of (poll_cycle import_time (Ret items) a)) =
  map (fun m => Print (LReceived m)) (dispatched import_time items).
Proof.
  intros Hs. rewrite (poll_cycle_items import_time a s items Hs). cbn zeta.
  rewrite <- (for_each_dispatched import_time items a s Hs).
  destruct (result_of _) as [[]|x]; [reflexivity|].
  destruct (is_Exception x); cbn [trace_of fst snd List.filter is_received get_request];
    [|reflexivity].
  rewrite List.filter_app. cbn. apply app_nil_r.
Qed.

(** X11.  A poll cycle hands the records of the batch to [handle_message]
    one by one in the order received, each at most once, and stops at the
    first record that is rejected (not dispatched) or whose dispatch is
    cut short by a [BaseException]: the "Received message" log lines of
    the cycle are those of exactly these messages, in that order. *)
Theorem poll_cycle_dispatches_in_order import_time items a s :
  _session a = Some s ->
  List.filter is_received (trace_of (poll_cycle import_time (Ret items) a)) =
  map (fun m => Print (LReceived m)) (dispatched import_time items).
Proof. apply poll_cycle_received. Qed.

(** X11 at a concrete input: the third of four records is rejected. *)
Lemma poll_cycle_dispatches_in_order_witness :
  List.filter is_received
    (trace_of (poll_cycle (Fin 0)
                 (Ret [item_at 2; item_at 1; rejected_item; item_at 3]) started))
  = [Print (LReceived (Message.mk "p1" "hi" None (Fin 2)));
     Print (LReceived (Message.mk "p1" "hi" None (Fin 1)))].
Proof.
  apply (poll_cycle_dispatches_in_order (Fin 0)
           [item_at 2; item_at 1; rejected_item; item_at 3] started 0).
  reflexivity.
Defined.

(** ** The default timestamp *)

Lemma py_gt_irrefl x : py_gt x x = false.
Proof.
  destruct x as [q| | |]; cbn; try reflexivity.
  apply negb_false_iff, Qle_bool_iff, Qle_refl.
Qed.

Lemma py_max_again w t : py_max (py_max w t) t = py_max w t.
Proof.
  unfold py_max. destruct (py_gt t w) eqn:E.
  - rewrite py_gt_irrefl. reflexivity.
  - rewrite E. reflexivity.
Qed.

Lemma fold_max_repeat t n w :
  fold_left py_max (repeat t n) w =
  match n with O => w | S _ => py_max w t end.
Proof.
  destruct n as [|n]; [reflexivity|]. cbn [repeat fold_left].
  induction n as [|n IH]; [reflexivity|].
  cbn [repeat fold_left]. rewrite py_max_again. exact IH.
Qed.

Lemma receipts_app n t1 t2 :
  Forall (fun e => is_cycle_sleep e = false) t1 ->
  receipts n (t1 ++ t2) =
  flat_map (fun e => match e with
                     | Print (LReceived m) => [(n, Message.timestamp m)]
                     | _ => []
                     end) (List.filter is_received t1)
  ++ receipts n t2.
Proof.
  induction 1 as [|e t1 He _ IH]; [reflexivity|].
  cbn [app receipts]. rewrite He.
  destruct e as [[]| | | | | | |]; cbn [List.filter is_received flat_map app];
    rewrite IH; reflexivity.
Qed.

Section Undated.
Variable import_time : pyfloat.

Lemma dispatched_undated items :
  forallb undated items = true ->
  map Message.timestamp (dispatched import_time items) =
    repeat import_time (length items)
  /\ timestamps import_time items = repeat import_time (length items)
  /\ forallb item_ok items = true.
Proof.
  induction items as [|it items IH]; intros H; [repeat split|].
  cbn [forallb] in H. apply andb_prop in H as [Hit Hrest].
  destruct (IH Hrest) as (IH1 & IH2 & IH3).
  cbn [dispatched forallb length repeat]. rewrite timestamps_cons, IH3.
  unfold undated in Hit. unfold item_ok.
  destruct (raw it) as [f c v [ts|]|]; try discriminate.
  cbn [new_Message default map Message.timestamp app]. rewrite Hit.
  cbn [map Message.timestamp andb]. rewrite IH1, IH2. repeat split.
Qed.

Lemma poll_cycle_undated items a s n rest :
  _session a = Some s ->
  forallb undated items = true ->
  let r := poll_cycle import_time (Ret items) a in
  result_of r = Ret tt
  /\ _session (state_of r) = Some s
  /\ last_message_timestamp (state_of r) =
     match items with
     | [] => last_message_timestamp a
     | _ :: _ => py_max (last_message_timestamp a) import_time
     end
  /\ receipts n (trace_of r ++ rest) =
     map (fun _ => (n, import_time)) items ++ receipts n rest.
Proof.
  intros Hs Hu r. subst r.
  destruct (dispatched_undated items Hu) as (Hd & Ht & Hok).
  destruct (poll_cycle_all_ok import_time a s items Hs Hok) as [Hr Hw].
  split; [exact Hr|].
  split; [rewrite poll_cycle_keeps_session; exact Hs|].
  split.
  { rewrite Hw, Ht, fold_max_repeat. destruct items; reflexivity. }
  rewrite (receipts_app n _ rest (poll_cycle_no_cycle_sleep import_time (Ret items) a)).
  f_equal. rewrite (poll_cycle_received import_time items a s Hs).
  clear -Hd. revert Hd. generalize (dispatched import_time items) as ms.
  induction items as [|it items IH]; intros [|m ms]; cbn; try discriminate;
    [reflexivity|].
  intros [= -> Hd]. f_equal. apply IH, Hd.
Qed.

Lemma start_polling_undated batches : forall a s n,
  _session a = Some s ->
  Forall (fun items => forallb undated items = true) batches ->
  let r := _start_polling import_time (uncancelled (map Ret batches)) a in
  result_of r = Ret tt
  /\ receipts n (trace_of r) = stamped n import_time batches
  /\ last_message_timestamp (state_of r) =
     match concat batches with
     | [] => last_message_timestamp a
     | _ :: _ => py_max (last_message_timestamp a) import_time
     end.
Proof.
  induction batches as [|items batches IH]; intros a s n Hs Hall;
    [repeat split|].
  inversion Hall as [|? ? Hu Hrest]; subst.
  cbn [map uncancelled].
  pose proof (triple_eta (poll_cycle import_time (Ret items) a)) as Heta.
  destruct (poll_cycle_undated items a s n
              (Sleep 5 :: trace_of (_start_polling import_time
                                      (uncancelled (map Ret batches))
                                      (state_of (poll_cycle import_time (Ret items) a))))
              Hs Hu) as (Hr & Hs1 & Hw & Hrec).
  cbn zeta in Hr, Hs1, Hw, Hrec. rewrite Hr in Heta.
  change (map (fun resp => (resp, Elapsed)) (map Ret batches))
    with (uncancelled (map Ret batches)).
  rewrite (start_polling_cons import_time _ Elapsed _ a _ _ Heta).
  cbn [result_of trace_of state_of fst snd].
  destruct (IH _ s (S n) Hs1 Hrest) as (IHr & IHrec & IHw).
  cbn zeta in IHr, IHrec, IHw.
  split; [exact IHr|]. split.
  - rewrite Hrec. cbn [receipts stamped].
    change (is_cycle_sleep (Sleep 5)) with true. cbn iota. rewrite IHrec. reflexivity.
  - rewrite IHw, Hw. cbn [concat].
    destruct items as [|it items]; cbn [app]; [reflexivity|].
    destruct (concat batches); [reflexivity|apply py_max_again].
Qed.
End Undated.



(** ** Starting and stopping *)

(** X12.  [stop] undoes [start]: on an agent with no session and no poll
    task, [start] then [stop] (the session closing normally) cancels the
    task created, closes the session created and gives back the agent as
    it was; a further [stop] does nothing but print. *)
Theorem stop_undoes_start session task a :
  _session a = None ->
  _poll_task a = None ->
  let up := start session task a in
  let down := stop (Ret tt) (state_of up) in
  up = (set_poll_task (Some task) (set_session (Some session) a),
        [CreateTask; Print LStarted], Ret tt)
  /\ down = (a, [CancelTask task; CloseSession session; Print LStopped], Ret tt)
  /\ forall cl, stop cl (state_of down) = (a, [Print LStopped], Ret tt).
Proof.
  intros Hs Ht up down. subst up down.
  destruct a as [url key ch hp wm pt ss]. cbn in Hs, Ht. subst pt ss.
  split; [reflexivity|]. split; [reflexivity|]. intros cl. reflexivity.
Qed.

(** X12 at a concrete input: a fresh agent. *)
Lemma stop_undoes_start_witness :
  stop (Ret tt) (state_of (start 4 7 (__init__ "key" "http://localhost:3000")))
  = (__init__ "key" "http://localhost:3000",
     [CancelTask 7; CloseSession 4; Print LStopped], Ret tt).
Proof.
  apply (stop_undoes_start 4 7 (__init__ "key" "http://localhost:3000"));
    reflexivity.
Defined.

(** X13.  When closing the session raises, [stop] has already cancelled
    the poll task, if there was one, and forgotten it, but keeps the
    session: the error goes to the caller, "stopped" is not printed, and
    a later [stop] closes that same session again and then clears it. *)
Theorem stop_keeps_session_when_close_fails session e a :
  _session a = Some session ->
  let failed := stop (Raise e) a in
  failed =
    (set_poll_task None a,
     match _poll_task a with
     | Some task => [CancelTask task]
     | None => []
     end ++ [CloseSession session],
     Raise e)
  /\ stop (Ret tt) (state_of failed) =
     (set_session None (state_of failed),
      [CloseSession session; Print LStopped], Ret tt).
Proof.
  intros Hs failed. subst failed.
  destruct a as [url key ch hp wm [t|] ss]; cbn in Hs; subst ss; cbn;
    split; reflexivity.
Qed.

(** X13 at a concrete input: a started agent whose session fails to
    close. *)
Lemma stop_keeps_session_when_close_fails_witness :
  stop (Raise (OtherError "ClientError")) started =
  (set_poll_task None started, [CancelTask 0; CloseSession 0],
   Raise (OtherError "ClientError")).
Proof.
  destruct (stop_keeps_session_when_close_fails 0 (OtherError "ClientError") started
              eq_refl) as (H & _).
  exact H.
Defined.

(** ** What the next poll asks for *)

Lemma process_message_no_get message llm :
  emits_only (fun e => is_get e = false) (_process_message message llm).
Proof.
  unfold _process_message, dict_getitem, new_list, read_list, list_extend.
  emitting.
Qed.

#[export] Hint Resolve process_message_no_get : emits.

Lemma for_each_no_get import_time items :
  emits_only (fun e => is_get e = false) (for_each items (poll_item import_time)).
Proof. unfold poll_item, handle_message, session_post. emitting. Qed.

Lemma poll_cycle_one_get import_time resp a s :
  _session a = Some s ->
  List.filter is_get (trace_of (poll_cycle import_time resp a)) = [get_request a].
Proof.
  intros Hs. destruct resp as [items|e].
  - rewrite (poll_cycle_items import_time a s items Hs). cbn zeta.
    pose proof (for_each_no_get import_time items a) as Hn.
    destruct (result_of _) as [[]|x]; [|destruct (is_Exception x)];
      cbn [trace_of fst snd List.filter is_get get_request];
      rewrite ?List.filter_app, (filter_none _ _ Hn); reflexivity.
  - unfold poll_cycle, try_except, bind, gets, await, except_Exception, get_request.
    rewrite Hs. cbn. destruct (is_Exception e); reflexivity.
Qed.

(** X28.  Each poll cycle of a started agent makes exactly one GET, with
    the watermark of that moment as [since]; so after a cycle whose
    records all parsed and were dispatched, with strictly increasing
    timestamps above the watermark, the next cycle asks for the messages
    since the timestamp of the last record of that batch.  (The watermark
    and that timestamp are finite: with an infinity or NaN as [since] the
    call would raise before anything is sent.) *)
Theorem next_poll_asks_since_last_timestamp import_time a s items resp :
  _session a = Some s ->
  forallb item_ok items = true ->
  strictly_increasing (timestamps import_time items) = true ->
  Forall (fun t => py_gt t (last_message_timestamp a) = true)
         (timestamps import_time items) ->
  is_finite (last_message_timestamp a) = true ->
  is_finite (List.last (timestamps import_time items) (last_message_timestamp a))
    = true ->
  let a1 := state_of (poll_cycle import_time (Ret items) a) in
  List.filter is_get (trace_of (poll_cycle import_time (Ret items) a))
  = [HttpGet (String.append (api_url a) "/messages") (last_message_timestamp a)]
  /\ List.filter is_get (trace_of (poll_cycle import_time resp a1))
     = [HttpGet (String.append (api_url a) "/messages")
                (List.last (timestamps import_time items) (last_message_timestamp a))]
  /\ is_finite (last_message_timestamp a1) = true.
Proof.
  intros Hs Hok Hinc Hall Hfa Hfl a1. subst a1.
  split; [apply (poll_cycle_one_get import_time _ a s Hs)|].
  pose proof (poll_cycle_keeps_session import_time (Ret items) a) as Hks.
  rewrite (poll_cycle_one_get import_time resp _ s) by congruence.
  unfold get_request.
  destruct (poll_cycle_all_ok import_time a s items Hs Hok) as [_ ->].
  assert (Hu : keeps api_url (poll_cycle import_time (Ret items))).
  { unfold poll_cycle, poll_item. frame. apply keeps_for_each. intros it. frame. }
  rewrite Hu.
  assert (Hl : fold_left py_max (timestamps import_time items) (last_message_timestamp a)
               = List.last (timestamps import_time items) (last_message_timestamp a)).
  { apply fold_max_increasing.
    destruct (timestamps import_time items) as [|t0 ts']; [reflexivity|].
    cbn [strictly_increasing]. apply andb_true_intro. split; [|exact Hinc].
    by inversion Hall. }
  rewrite Hl. split; [reflexivity|exact Hfl].
Qed.

(** X28 at a concrete input: the batch holds one message with timestamp
    1; the next poll asks since 1. *)
Lemma next_poll_asks_since_last_timestamp_witness :
  List.filter is_get
    (trace_of (poll_cycle (Fin 0) (Ret [])
                 (state_of (poll_cycle (Fin 0) (Ret [item_at 1]) started))))
  = [HttpGet "http://localhost:3000/messages" (Fin 1)].
Proof.
  destruct (next_poll_asks_since_last_timestamp (Fin 0) started 0 [item_at 1] (Ret [])
              eq_refl eq_refl eq_refl) as (_ & H & _).
  - repeat constructor.
  - reflexivity.
  - reflexivity.
  - exact H.
Defined.
End MarketSentimentMore.

(** * Further facts about the streaming agent *)
Module NodeMore.
Import Node NodeFacts.

(** ** Dispatch *)

Lemma for_each_handlers message run hs (a : NodeAgent) :
  for_each hs (fun h => await (Call h message) (run h)) a =
  (a,
   map (fun h => Call h message) (called run hs),
   match List.find (fun h => match run h with Ret _ => false | Raise _ => true end) hs with
   | Some h => run h
   | None => Ret tt
   end).
Proof.
  induction hs as [|h hs IH]; [reflexivity|].
  cbn [for_each called List.find]. unfold bind at 1. unfold await at 1.
  destruct (run h) as [[]|e] eqn:E; [|rewrite E; reflexivity].
  rewrite IH. reflexivity.
Qed.

Lemma handle_message_calls message run a :
  let r := handle_message message run a in
  state_of r = a
  /\ List.filter is_call (trace_of r) =
     map (fun h => Call h message) (called run (_message_handlers a))
  /\ (forall e, result_of r = Raise e -> is_Exception e = false).
Proof.
  intros r. subst r. unfold handle_message. rewrite run_try_except.
  rewrite run_bind. cbn [emit result_of state_of trace_of fst snd].
  rewrite run_bind. cbn [gets result_of state_of trace_of fst snd].
  rewrite for_each_handlers. cbn [result_of state_of trace_of fst snd app].
  assert (Hf : forall hs, List.filter is_call (map (fun h => Call h message) hs)
                          = map (fun h => Call h message) hs).
  { induction hs as [|h hs IH]; [reflexivity|]. cbn. rewrite IH. reflexivity. }
  destruct (List.find _ _) as [h|]; [destruct (run h) as [[]|e]|];
    cbn [result_of state_of trace_of fst snd app List.filter is_call];
    try (rewrite Hf; repeat split; congruence).
  unfold except_Exception. destruct (is_Exception e) eqn:He;
    cbn [emit result_of state_of trace_of fst snd app List.filter is_call];
    rewrite ?List.filter_app, Hf; cbn [List.filter is_call]; rewrite ?app_nil_r;
    repeat split; congruence.
Qed.

Lemma handler_raises_step sys i message e :
  pump sys = AtHandler i message ->
  is_Exception e = true ->
  step sys (PumpWake (WHandler (Raise e))) =
  mkSystem (agent sys) (at_guard (agent sys))
           (trace sys ++ Print (LErrorHandling e) :: guard_trace (agent sys)).
Proof.
  intros Hp He. destruct sys as [a pc t]. cbn [pump agent trace] in *. subst pc.
  unfold step. cbn [pump agent trace _handle_messages].
  unfold loop_body, handle_message_resume, handler_error, loop_head, try_except,
    bind, of_outcome, gets, emit, ret, except_Exception, at_guard, guard_trace.
  rewrite He. cbn.
  destruct (_running a), (_websocket a); cbn; rewrite <- ?app_assoc; reflexivity.
Qed.

Lemma handler_returns_step sys i message :
  pump sys = AtHandler i message ->
  step sys (PumpWake (WHandler (Ret tt))) =
  match _message_handlers (agent sys) !! S i with
  | Some h =>
      mkSystem (agent sys) (AtHandler (S i) message) (trace sys ++ [Call h message])
  | None =>
      mkSystem (agent sys) (at_guard (agent sys))
               (trace sys ++ guard_trace (agent sys))
  end.
Proof.
  intros Hp. destruct sys as [a pc t]. cbn [pump agent trace] in *. subst pc.
  unfold step. cbn [pump agent trace _handle_messages].
  unfold loop_body, handle_message_resume, next_handler, handler_error, loop_head,
    try_except, bind, of_outcome, gets, emit, ret, except_Exception, at_guard,
    guard_trace.
  cbn. destruct (_message_handlers a !! S i) as [h|]; cbn; [reflexivity|].
  destruct (_running a), (_websocket a); cbn; rewrite ?app_nil_r; reflexivity.
Qed.

Lemma message_frame_step sys w message :
  pump sys = AtRecv w ->
  step sys (PumpWake (WRecv (Ret (FrameMessage message)))) =
  match _message_handlers (agent sys) !! 0 with
  | Some h =>
      mkSystem (agent sys) (AtHandler 0 message)
               (trace sys ++ [Print (LReceived message); Call h message])
  | None =>
      mkSystem (agent sys) (at_guard (agent sys))
               (trace sys ++ Print (LReceived message) :: guard_trace (agent sys))
  end.
Proof.
  intros Hp. destruct sys as [a pc t]. cbn [pump agent trace] in *. subst pc.
  unfold step. cbn [pump agent trace _handle_messages].
  unfold loop_body, handle_message_enter, next_handler, handler_error, loop_head,
    try_except, bind, of_outcome, gets, emit, ret, except_Exception, at_guard,
    guard_trace.
  cbn. destruct (_message_handlers a !! 0) as [h|]; cbn; [reflexivity|].
  destruct (_running a), (_websocket a); cbn; reflexivity.
Qed.

Lemma for_each_handlers_head message run h rest (a : NodeAgent) :
  trace_of (for_each (h :: rest) (fun h => await (Call h message) (run h)) a) =
  Call h message ::
    List.tl (trace_of (for_each (h :: rest) (fun h => await (Call h message) (run h)) a)).
Proof.
  cbn [for_each]. rewrite run_bind. cbn [await result_of state_of trace_of fst snd].
  destruct (run h); reflexivity.
Qed.

Lemma run_cons sys ev evs : Node.run sys (ev :: evs) = Node.run (step sys ev) evs.
Proof. reflexivity. Qed.

Lemma completions_cons run h rest :
  completions run (h :: rest) =
  PumpWake (WHandler (run h)) ::
    match run h with
    | Ret _ => completions run rest
    | Raise _ => []
    end.
Proof. unfold completions. cbn [called map]. destruct (run h); reflexivity. Qed.

Lemma dispatch_alone run message a :
  (forall h e, run h = Raise e -> is_Exception e = true) ->
  forall rest i h t,
  drop i (_message_handlers a) = h :: rest ->
  let r := for_each (h :: rest) (fun h => await (Call h message) (run h)) a in
  Node.run (mkSystem a (AtHandler i message) t) (completions run (h :: rest)) =
  mkSystem a (at_guard a)
    (t ++ List.tl (trace_of r)
       ++ match result_of r with
          | Raise e => [Print (LErrorHandling e)]
          | Ret _ => []
          end
       ++ guard_trace a).
Proof.
  intros Hrun. induction rest as [|h' rest IH]; intros i h t Hd r; subst r;
    rewrite completions_cons, run_cons;
    change (for_each (h :: ?l) ?b a) with (bind (b h) (fun _ => for_each l b) a);
    rewrite run_bind; cbn [await result_of state_of trace_of fst snd];
    destruct (run h) as [[]|e] eqn:E;
    try (rewrite (handler_raises_step (mkSystem a (AtHandler i message) t) i message e
                    eq_refl (Hrun h e E)); reflexivity);
    rewrite (handler_returns_step (mkSystem a (AtHandler i message) t) i message eq_refl);
    cbn [agent trace].
  - assert (Hn : _message_handlers a !! S i = None).
    { replace (S i) with (i + 1) by lia. rewrite <- lookup_drop, Hd. reflexivity. }
    rewrite Hn. reflexivity.
  - assert (Hn : _message_handlers a !! S i = Some h').
    { replace (S i) with (i + 1) by lia. rewrite <- lookup_drop, Hd. reflexivity. }
    rewrite Hn.
    assert (Hd' : drop (S i) (_message_handlers a) = h' :: rest).
    { replace (S i) with (i + 1) by lia. rewrite <- drop_drop, Hd. reflexivity. }
    specialize (IH (S i) h' (t ++ [Call h' message]) Hd'). cbn zeta in IH.
    rewrite IH. f_equal. rewrite <- app_assoc. f_equal.
    cbn [result_of state_of trace_of fst snd app List.tl].
    rewrite (for_each_handlers_head message run h' rest a) at 2.
    reflexivity.
Qed.

Lemma handle_message_alone_trace message run a :
  (forall h e, run h = Raise e -> is_Exception e = true) ->
  let r := for_each (_message_handlers a) (fun h => await (Call h message) (run h)) a in
  trace_of (handle_message message run a) =
  Print (LReceived message) :: trace_of r
    ++ match result_of r with
       | Raise e => [Print (LErrorHandling e)]
       | Ret _ => []
       end.
Proof.
  intros Hrun r. subst r. unfold handle_message. rewrite run_try_except, run_bind.
  cbn [emit result_of state_of trace_of fst snd].
  rewrite run_bind. cbn [gets result_of state_of trace_of fst snd app].
  pose proof (for_each_handlers message run (_message_handlers a) a) as Hf.
  destruct (for_each _ _ a) as [[a1 t1] [[]|e]] eqn:Ef;
    cbn [result_of state_of trace_of fst snd app].
  - rewrite app_nil_r. reflexivity.
  - assert (He : is_Exception e = true).
    { injection Hf as _ _ Hres.
      destruct (List.find _ _) as [h|] eqn:Efind; [|discriminate].
      apply (Hrun h). congruence. }
    unfold except_Exception. rewrite He.
    cbn [emit result_of state_of trace_of fst snd app]. reflexivity.
Qed.

(** X14.  When the agent is left alone during a dispatch (nothing is
    registered or unregistered and no method is called while the handlers
    are awaited), the pump awaits the registered handlers in registration
    order, each once for each of its registrations, up to and including
    the first one that raises; it does what [handle_message] does on the
    handler list as it is when the frame arrives, lets no [Exception] of
    a handler out, leaves the agent as it is and goes on to its loop
    guard. *)
Theorem handlers_run_in_registration_order sys w message run :
  pump sys = AtRecv w ->
  (forall h e, run h = Raise e -> is_Exception e = true) ->
  let a := agent sys in
  Node.run sys (PumpWake (WRecv (Ret (FrameMessage message)))
                :: completions run (_message_handlers a)) =
  mkSystem a (at_guard a)
           (trace sys ++ trace_of (handle_message message run a) ++ guard_trace a)
  /\ List.filter is_call (trace_of (handle_message message run a)) =
     map (fun h => Call h message) (called run (_message_handlers a)).
Proof.
  intros Hp Hrun a. split; [|apply handle_message_calls].
  rewrite run_cons, (message_frame_step sys w message Hp).
  rewrite (handle_message_alone_trace message run a Hrun). cbn zeta. fold a.
  destruct (_message_handlers a) as [|h rest] eqn:Eh; cbn [lookup list_lookup].
  - reflexivity.
  - assert (Hd : drop 0 (_message_handlers a) = h :: rest) by exact Eh.
    rewrite (dispatch_alone run message a Hrun rest 0 h _ Hd). cbn zeta.
    f_equal. rewrite <- !app_assoc. cbn [app]. do 2 f_equal.
    rewrite (for_each_handlers_head message run h rest a) at 2.
    cbn [app]. rewrite <- app_assoc. reflexivity.
Qed.

(** X14 at a concrete input: of three handlers the second raises. *)
Lemma handlers_run_in_registration_order_witness :
  let sys := Node.run connected [CallOnMessage 1; CallOnMessage 2; CallOnMessage 3] in
  Node.run sys [PumpWake (WRecv (Ret (FrameMessage hello)));
                PumpWake (WHandler (Ret tt));
                PumpWake (WHandler (Raise (OtherError "ZeroDivisionError")))] =
  mkSystem (agent sys) (AtRecv 1)
    (trace sys ++
     [Print (LReceived hello); Call 1 hello; Call 2 hello;
      Print (LErrorHandling (OtherError "ZeroDivisionError")); WsRecv 1]).
Proof.
  cbn zeta.
  destruct (handlers_run_in_registration_order
              (Node.run connected [CallOnMessage 1; CallOnMessage 2; CallOnMessage 3])
              1 hello
              (fun h => if Nat.eqb h 2 then Raise (OtherError "ZeroDivisionError")
                        else Ret tt)
              eq_refl) as [H _].
  - intros h e. destruct (Nat.eqb h 2); intros [= <-]. reflexivity.
  - exact H.
Defined.

(** X15.  The dispatch reads the handler list as it is each time a
    handler returns: the next handler awaited is the one then found at
    the next position.  So a handler that unregisters itself while it is
    awaited makes the dispatch skip the handler registered right after
    it, and a handler registered while the last one is awaited is invoked
    with the message being dispatched. *)
Theorem dispatch_reads_live_list sys i message :
  pump sys = AtHandler i message ->
  step sys (PumpWake (WHandler (Ret tt))) =
    match _message_handlers (agent sys) !! S i with
    | Some h =>
        mkSystem (agent sys) (AtHandler (S i) message)
                 (trace sys ++ [Call h message])
    | None =>
        mkSystem (agent sys) (at_guard (agent sys))
                 (trace sys ++ guard_trace (agent sys))
    end
  /\ (forall pre h next post,
        _message_handlers (agent sys) = pre ++ h :: next :: post ->
        length pre = i ->
        ~ In h pre ->
        let sys' := Node.run sys [CallToken (Unregister h);
                                  PumpWake (WHandler (Ret tt))] in
        _message_handlers (agent sys') = pre ++ next :: post
        /\ trace sys' = trace sys ++ match post with
                                     | h' :: _ => [Call h' message]
                                     | [] => guard_trace (agent sys)
                                     end)
  /\ (forall h,
        length (_message_handlers (agent sys)) = S i ->
        Node.run sys [CallOnMessage h; PumpWake (WHandler (Ret tt))] =
        mkSystem (set_message_handlers (_message_handlers (agent sys) ++ [h])
                                       (agent sys))
                 (AtHandler (S i) message) (trace sys ++ [Call h message])).
Proof.
  intros Hp. split; [apply handler_returns_step, Hp|].
  destruct sys as [a pc t]. cbn [pump agent trace] in *. subst pc.
  split.
  - intros pre h next post Hhs Hlen Hn.
    rewrite run_cons.
    assert (Hr : list_remove h (pre ++ h :: next :: post) = Some (pre ++ next :: post)).
    { clear -Hn. induction pre as [|p pre IH]; cbn [app list_remove].
      - rewrite Nat.eqb_refl. reflexivity.
      - destruct (Nat.eqb_spec p h) as [->|Hne].
        + exfalso. apply Hn. left. reflexivity.
        + rewrite IH; [reflexivity|]. intros H. apply Hn. right. exact H. }
    assert (Hs : step (mkSystem a (AtHandler i message) t) (CallToken (Unregister h))
                 = mkSystem (set_message_handlers (pre ++ next :: post) a)
                            (AtHandler i message) t).
    { unfold step, call, call_token, bind, gets, modify. cbn [agent pump trace].
      rewrite Hhs, Hr. cbn. rewrite app_nil_r. reflexivity. }
    rewrite Hs, run_cons.
    rewrite (handler_returns_step
               (mkSystem (set_message_handlers (pre ++ next :: post) a)
                         (AtHandler i message) t) i message eq_refl).
    cbn [agent trace _message_handlers set_message_handlers Node.run fold_left].
    assert (Hl : (pre ++ next :: post) !! S i = post !! 0).
    { rewrite lookup_app_r by lia. subst i.
      replace (S (length pre) - length pre) with 1 by lia. reflexivity. }
    rewrite Hl. destruct post as [|h' post]; cbn [lookup list_lookup]; cbn;
      split; reflexivity.
  - intros h Hlen. rewrite run_cons.
    assert (Hs : step (mkSystem a (AtHandler i message) t) (CallOnMessage h)
                 = mkSystem (set_message_handlers (_message_handlers a ++ [h]) a)
                            (AtHandler i message) t).
    { unfold step, call, on_message, bind, modify, ret. cbn [agent pump trace].
      cbn. rewrite app_nil_r. reflexivity. }
    rewrite Hs, run_cons.
    rewrite (handler_returns_step
               (mkSystem (set_message_handlers (_message_handlers a ++ [h]) a)
                         (AtHandler i message) t) i message eq_refl).
    cbn [agent trace _message_handlers set_message_handlers Node.run fold_left].
    rewrite lookup_app_r by lia. rewrite Hlen, Nat.sub_diag. reflexivity.
Qed.

(** X15 at a concrete input: handler 1 of handlers 1, 2, 3 calls its
    token while it is awaited; handler 2 is skipped. *)
Lemma dispatch_reads_live_list_witness :
  let sys := Node.run connected
               [CallOnMessage 1; CallOnMessage 2; CallOnMessage 3;
                PumpWake (WRecv (Ret (FrameMessage hello)))] in
  let sys' := Node.run sys [CallToken (Unregister 1); PumpWake (WHandler (Ret tt))] in
  _message_handlers (agent sys') = [2; 3]
  /\ trace sys' = trace sys ++ [Call 3 hello].
Proof.
  cbn zeta.
  destruct (dispatch_reads_live_list
              (Node.run connected
                 [CallOnMessage 1; CallOnMessage 2; CallOnMessage 3;
                  PumpWake (WRecv (Ret (FrameMessage hello)))])
              0 hello eq_refl) as (_ & H & _).
  apply (H [] 1 2 [3]); [reflexivity|reflexivity|intros []].
Defined.

Lemma list_remove_first h l :
  In h l ->
  exists before after,
    l = before ++ h :: after /\ ~ In h before
    /\ list_remove h l = Some (before ++ after).
Proof.
  induction l as [|y l IH]; intros Hin; [destruct Hin|].
  cbn [list_remove]. destruct (Nat.eqb_spec y h) as [->|Hne].
  - exists [], l. repeat split. intros [].
  - destruct Hin as [->|Hin]; [contradiction|].
    destruct (IH Hin) as (before & after & -> & Hnb & ->).
    exists (y :: before), after. repeat split.
    intros [->|H]; [apply Hne; reflexivity | apply Hnb, H].
Qed.

(** X16.  Calling the token of a handler that is registered removes its
    earliest registration and nothing else: the other handlers, and any
    later registration of the same handler, stay in their order, and the
    call returns without effect on the outside. *)
Theorem token_removes_earliest_registration h a :
  In h (_message_handlers a) ->
  exists before after,
    _message_handlers a = before ++ h :: after
    /\ ~ In h before
    /\ call_token (Unregister h) a =
       (set_message_handlers (before ++ after) a, [], Ret tt).
Proof.
  intros Hin. destruct (list_remove_first h _ Hin) as (before & after & E & Hnb & Hr).
  exists before, after. split; [exact E|]. split; [exact Hnb|].
  unfold call_token, bind, gets, modify. rewrite Hr. reflexivity.
Qed.

(** X16 at a concrete input: handler 5 registered before and after
    handler 3. *)
Lemma token_removes_earliest_registration_witness :
  exists before after,
    [5; 3; 5] = before ++ 5 :: after
    /\ ~ In 5 before
    /\ call_token (Unregister 5)
         (state_of (register_all [5; 3; 5] (__init__ "ws://localhost:8080" None)))
       = (set_message_handlers (before ++ after)
            (state_of (register_all [5; 3; 5] (__init__ "ws://localhost:8080" None))),
          [], Ret tt).
Proof.
  apply (token_removes_earliest_registration 5
           (state_of (register_all [5; 3; 5] (__init__ "ws://localhost:8080" None)))).
  left. reflexivity.
Defined.

Section Unregistered.
Variable h : handler.

Lemma next_handler_unregistered i message :
  preserves (unregistered h) (not_call h) (next_handler i message).
Proof.
  intros a Ha. unfold next_handler, bind, gets, emit, ret. cbn.
  destruct (_message_handlers a !! i) as [h'|] eqn:E; cbn;
    (split; [exact Ha|]); repeat constructor.
  intros m [= -> _]. apply Ha. eapply list_elem_of_In, list_elem_of_lookup_2, E.
Qed.

Hint Resolve next_handler_unregistered : preserving.

Lemma connect_unregistered c s :
  preserves (unregistered h) (not_call h) (_connect c s).
Proof. unfold _connect. preserving. Qed.

Hint Resolve connect_unregistered : preserving.

Lemma loop_head_unregistered :
  preserves (unregistered h) (not_call h) loop_head.
Proof. unfold loop_head. preserving. Qed.

Hint Resolve loop_head_unregistered : preserving.

Lemma handle_messages_unregistered pc w :
  preserves (unregistered h) (not_call h) (_handle_messages pc w).
Proof.
  assert (Hh : forall e m, pump_handlers e = Some m ->
                 preserves (unregistered h) (not_call h) m).
  { intros e m. unfold pump_handlers.
    destruct (is_ConnectionClosed e); [|destruct (is_Exception e)];
      intros [= <-]; preserving. }
  assert (Hb : forall body, preserves (unregistered h) (not_call h) body ->
                 preserves (unregistered h) (not_call h) (loop_body body)).
  { intros body Hbody. unfold loop_body.
    apply preserves_bind; [apply preserves_try_except; [exact Hbody|exact Hh]|].
    intros [pc'|]; preserving. }
  destruct pc, w; cbn [_handle_messages]; try solve [preserving]; apply Hb;
    unfold handle_message_enter, handle_message_resume, handler_error; preserving.
Qed.

Lemma list_remove_subset x l l' y :
  list_remove x l = Some l' -> In y l' -> In y l.
Proof.
  revert l'. induction l as [|z l IH]; intros l'; cbn [list_remove]; [discriminate|].
  destruct (Nat.eqb z x).
  - intros [= <-] H. right. exact H.
  - destruct (list_remove x l) as [l0|]; cbn; [|discriminate].
    intros [= <-] [->|H]; [left; reflexivity|right; apply (IH l0 eq_refl H)].
Qed.

Lemma step_unregistered sys ev :
  unregistered h (agent sys) ->
  ev <> CallOnMessage h ->
  unregistered h (agent (step sys ev))
  /\ exists t, trace (step sys ev) = trace sys ++ t /\ Forall (not_call h) t.
Proof.
  intros Ha Hev. destruct sys as [a pc t0]. cbn [agent] in Ha.
  destruct ev as [c s|cl|h'|[h']|to content conv s|w]; cbn [step agent pump trace].
  - assert (Hs : preserves (unregistered h) (not_call h) (start c s)).
    { unfold start. preserving. }
    destruct (Hs a Ha) as [H1 Ht1].
    destruct (start c s a) as [[a1 t1] [[]|e]]; cbn [state_of trace_of fst snd] in *.
    + destruct pc; cbn [agent trace];
        try (split; [exact H1|exists t1; split; [reflexivity|exact Ht1]]).
      destruct (loop_head_unregistered a1 H1) as [H2 Ht2].
      destruct (loop_head a1) as [[a2 t2] [pc'|e]];
        cbn [state_of trace_of fst snd agent trace] in *;
        (split; [exact H2|exists (t1 ++ t2); split; [reflexivity|]]);
        apply Forall_app; split; assumption.
    + split; [exact H1|exists t1; split; [reflexivity|exact Ht1]].
  - assert (Hs : preserves (unregistered h) (not_call h) (stop cl)).
    { unfold stop. preserving. }
    destruct (Hs a Ha) as [H1 Ht1].
    destruct (stop cl a) as [[a1 t1] o]; cbn [state_of trace_of fst snd agent trace] in *.
    split; [exact H1|exists t1; split; [reflexivity|exact Ht1]].
  - unfold call, on_message, bind, modify, ret. cbn.
    split; [|exists []; split; [reflexivity|constructor]].
    unfold unregistered. cbn. intros [H|[->|[]]]%in_app_or; [exact (Ha H)|].
    apply Hev. reflexivity.
  - unfold call, call_token, bind, gets, modify, raise. cbn.
    destruct (list_remove h' (_message_handlers a)) as [hs'|] eqn:E; cbn;
      (split; [|exists []; split; [reflexivity|constructor]]); [|exact Ha].
    unfold unregistered. cbn. intros H. apply Ha. eapply list_remove_subset; eassumption.
  - assert (Hs : preserves (unregistered h) (not_call h) (send_message to content conv s)).
    { unfold send_message. preserving. }
    destruct (Hs a Ha) as [H1 Ht1]. unfold call. cbn [agent pump trace].
    destruct (send_message to content conv s a) as [[a1 t1] o];
      cbn [state_of trace_of fst snd agent trace] in *.
    split; [exact H1|exists t1; split; [reflexivity|exact Ht1]].
  - destruct (handle_messages_unregistered pc w a Ha) as [H1 Ht1].
    destruct (_handle_messages pc w a) as [[a1 t1] [pc'|e]];
      cbn [state_of trace_of fst snd agent trace] in *;
      (split; [exact H1|exists t1; split; [reflexivity|exact Ht1]]).
Qed.

Lemma run_unregistered evs : forall sys,
  unregistered h (agent sys) ->
  ~ In (CallOnMessage h) evs ->
  unregistered h (agent (Node.run sys evs))
  /\ exists t, trace (Node.run sys evs) = trace sys ++ t /\ Forall (not_call h) t.
Proof.
  induction evs as [|ev evs IH]; intros sys Ha Hn.
  - split; [exact Ha|]. exists []. split; [symmetry; apply app_nil_r|constructor].
  - rewrite run_cons.
    destruct (step_unregistered sys ev Ha) as (H1 & t1 & E1 & Ht1).
    { intros ->. apply Hn. left. reflexivity. }
    destruct (IH (step sys ev) H1) as (H2 & t2 & E2 & Ht2).
    { intros H. apply Hn. right. exact H. }
    split; [exact H2|]. exists (t1 ++ t2). split.
    + rewrite E2, E1, app_assoc. reflexivity.
    + apply Forall_app. split; assumption.
Qed.
End Unregistered.

(** X17.  A handler that is not registered is never invoked, as long as
    [on_message] is not called with it: whatever is started, stopped,
    sent, received or reconnected, and whatever the other handlers do
    (return, raise, register or unregister handlers), it stays
    unregistered and no message is handed to it. *)
Theorem unregistered_handler_never_invoked h sys evs :
  ~ In h (_message_handlers (agent sys)) ->
  ~ In (CallOnMessage h) evs ->
  ~ In h (_message_handlers (agent (Node.run sys evs)))
  /\ exists t, trace (Node.run sys evs) = trace sys ++ t
             /\ forall m, ~ In (Call h m) t.
Proof.
  intros Ha Hn. destruct (run_unregistered h evs sys Ha Hn) as (H1 & t & E & Ht).
  split; [exact H1|]. exists t. split; [exact E|].
  intros m Hin. rewrite List.Forall_forall in Ht. exact (Ht _ Hin m eq_refl).
Qed.

(** X17 at a concrete input: handler 9 was registered and its token
    called; two messages are dispatched, handlers coming and going. *)
Lemma unregistered_handler_never_invoked_witness :
  let sys := Node.run connected
               [CallOnMessage 1; CallOnMessage 9; CallToken (Unregister 9)] in
  let evs := [PumpWake (WRecv (Ret (FrameMessage hello)));
              CallOnMessage 2;
              PumpWake (WHandler (Ret tt));
              PumpWake (WHandler (Raise (OtherError "ZeroDivisionError")));
              PumpWake (WRecv (Ret (FrameMessage hello)))] in
  ~ In 9 (_message_handlers (agent (Node.run sys evs)))
  /\ exists t, trace (Node.run sys evs) = trace sys ++ t
             /\ forall m, ~ In (Call 9 m) t.
Proof.
  apply (unregistered_handler_never_invoked 9
           (Node.run connected
              [CallOnMessage 1; CallOnMessage 9; CallToken (Unregister 9)])).
  - intros [H|[]]; discriminate.
  - intros H. repeat (destruct H as [H|H]; [discriminate|]). exact H.
Defined.

(** ** Connecting *)

Lemma connect_run a w s :
  registration a = [] \/ s = Ret tt ->
  _connect (Ret w) s a =
  (set_websocket (Some w) a,
   WsConnect (node_url a) :: map (WsSend w) (registration a) ++ [CreateTask],
   Ret tt).
Proof.
  unfold registration.
  unfold _connect, try_except, bind, gets, modify, emit, await, ret.
  destruct a as [url [id|] w0 hs r]; cbn; [|reflexivity].
  destruct (String.eqb id ""); cbn; [reflexivity|].
  intros [H| ->]; [discriminate|]. reflexivity.
Qed.

(** X18.  A successful [start] stores the new websocket, marks the agent
    running and creates one pump task; it sends the registration frame
    first exactly when an agent id is configured and is not the empty
    string. *)
Theorem start_connects_and_registers a w s :
  registration a = [] \/ s = Ret tt ->
  start (Ret w) s a =
  (set_websocket (Some w) (set_running true a),
   WsConnect (node_url a) :: map (WsSend w) (registration a)
     ++ [CreateTask; Print LStarted],
   Ret tt).
Proof.
  intros H. unfold start. rewrite run_try_except, run_bind.
  cbn [modify result_of state_of trace_of fst snd app].
  rewrite run_bind.
  rewrite (connect_run (set_running true a) w s) by exact H.
  cbn [emit result_of state_of trace_of fst snd app].
  rewrite <- app_assoc. reflexivity.
Qed.

(** X18 at a concrete input: the agent id is the empty string, so nothing
    is registered. *)
Lemma start_connects_and_registers_witness :
  start (Ret 1) (Raise (OtherError "unused")) (__init__ "ws://localhost:8080" (Some ""))
  = (set_websocket (Some 1) (set_running true (__init__ "ws://localhost:8080" (Some ""))),
     [WsConnect "ws://localhost:8080"; CreateTask; Print LStarted],
     Ret tt).
Proof.
  apply (start_connects_and_registers (__init__ "ws://localhost:8080" (Some "")) 1
           (Raise (OtherError "unused"))).
  left. reflexivity.
Defined.

(** X19.  When the first connection attempt fails, [start] raises that
    error to its caller and no pump task exists, but the agent is left
    marked running; the caller can retry, and a later [start] that
    connects brings the pump up. *)
Theorem failed_start_can_be_retried sys e s w :
  pump sys = NoTask ->
  is_Exception e = true ->
  let failed := step sys (CallStart (Raise e) s) in
  let retried := step failed (CallStart (Ret w) (Ret tt)) in
  result_of (start (Raise e) s (agent sys)) = Raise e
  /\ pump failed = NoTask
  /\ _running (agent failed) = true
  /\ _websocket (agent failed) = _websocket (agent sys)
  /\ trace failed =
     trace sys ++ [WsConnect (node_url (agent sys));
                   Print (LErrorConnecting e); Print (LFailedStart e)]
  /\ pump retried = AtRecv w
  /\ _websocket (agent retried) = Some w.
Proof.
  intros Hp He failed retried. subst failed retried.
  destruct sys as [a pc t]. cbn [pump agent trace] in *. subst pc.
  assert (Hs : start (Raise e) s a =
               (set_running true a,
                [WsConnect (node_url a); Print (LErrorConnecting e);
                 Print (LFailedStart e)], Raise e)).
  { unfold start, _connect, try_except, bind, gets, modify, emit, await, raise,
      except_Exception. cbn. rewrite He. cbn. rewrite He. reflexivity. }
  assert (Hf : step (mkSystem a NoTask t) (CallStart (Raise e) s) =
               mkSystem (set_running true a) NoTask
                 (t ++ [WsConnect (node_url a); Print (LErrorConnecting e);
                        Print (LFailedStart e)])).
  { unfold step. cbn [agent pump trace]. rewrite Hs. reflexivity. }
  rewrite Hf, Hs. cbn [pump agent trace result_of snd].
  split; [reflexivity|]. split; [reflexivity|]. split; [reflexivity|].
  split; [reflexivity|]. split; [reflexivity|].
  unfold step. cbn [pump agent trace].
  destruct a as [url [id|] w0 hs r]; [destruct (String.eqb id "") eqn:Eid|];
    unfold start, _connect, loop_head, try_except, bind, gets, modify, emit, await,
      ret; cbn; rewrite ?Eid; cbn; split; reflexivity.
Qed.

(** X19 at a concrete input: a fresh agent whose first connection is
    refused. *)
Lemma failed_start_can_be_retried_witness :
  let sys := mkSystem (__init__ "ws://localhost:8080" (Some "agent-1")) NoTask [] in
  let failed := step sys (CallStart (Raise (OtherError "ConnectionRefusedError")) (Ret tt)) in
  pump failed = NoTask /\ _running (agent failed) = true.
Proof.
  destruct (failed_start_can_be_retried
              (mkSystem (__init__ "ws://localhost:8080" (Some "agent-1")) NoTask [])
              (OtherError "ConnectionRefusedError") (Ret tt) 1 eq_refl eq_refl)
    as (_ & H1 & H2 & _).
  split; [exact H1 | exact H2].
Defined.

(** X20.  When the connection is made but sending the registration frame
    raises, [start] raises that error to its caller with the new
    websocket stored in the agent and left open, and without a pump task:
    a later [send_message] writes on that websocket although nothing
    reads from it. *)
Theorem failed_registration_keeps_socket a id w e to content conv s :
  agent_id a = Some id ->
  String.eqb id "" = false ->
  is_Exception e = true ->
  let r := start (Ret w) (Raise e) a in
  result_of r = Raise e
  /\ _websocket (state_of r) = Some w
  /\ trace_of r =
     [WsConnect (node_url a); WsSend w (Register id);
      Print (LErrorConnecting e); Print (LFailedStart e)]
  /\ List.filter is_send (trace_of (send_message to content conv s (state_of r)))
     = [WsSend w (Chat to content conv)].
Proof.
  intros Hid Hne He r. subst r.
  destruct a as [url aid w0 hs rn]. cbn in Hid. subst aid.
  unfold start, _connect, send_message, try_except, bind, gets, modify, emit, await,
    raise, except_Exception.
  cbn. rewrite Hne. cbn. rewrite He. cbn. rewrite He. cbn.
  repeat split.
  destruct s as [[]|x]; cbn; [reflexivity|]. destruct (is_Exception x); reflexivity.
Qed.

(** X20 at a concrete input. *)
Lemma failed_registration_keeps_socket_witness :
  _websocket (state_of (start (Ret 1) (Raise (OtherError "ConnectionResetError"))
                          (__init__ "ws://localhost:8080" (Some "agent-1"))))
  = Some 1.
Proof.
  destruct (failed_registration_keeps_socket
              (__init__ "ws://localhost:8080" (Some "agent-1")) "agent-1" 1
              (OtherError "ConnectionResetError") "peer" "hi" None (Ret tt)
              eq_refl eq_refl eq_refl) as (_ & H & _).
  exact H.
Defined.

(** ** Stopping and sending *)

(** X22.  When closing the websocket raises, [stop] raises that error to
    its caller after marking the agent not running, but the websocket
    stays stored: "stopped" is not printed and a [send_message] still
    writes on that websocket instead of failing as not connected. *)
Theorem stop_keeps_socket_when_close_fails a w e to content conv :
  _websocket a = Some w ->
  let r := stop (Raise e) a in
  r = (set_running false a, [WsClose w], Raise e)
  /\ send_message to content conv (Ret tt) (state_of r) =
     (state_of r, [WsSend w (Chat to content conv)], Ret tt).
Proof.
  intros Hw r. subst r. destruct a as [url aid w0 hs rn]. cbn in Hw. subst w0.
  split; reflexivity.
Qed.

(** X22 at a concrete input. *)
Lemma stop_keeps_socket_when_close_fails_witness :
  stop (Raise (OtherError "ConnectionResetError")) (agent connected)
  = (set_running false (agent connected), [WsClose 1],
     Raise (OtherError "ConnectionResetError")).
Proof.
  apply (stop_keeps_socket_when_close_fails (agent connected) 1
           (OtherError "ConnectionResetError") "peer" "hi" None).
  reflexivity.
Defined.

(** X23.  On a connected agent [send_message] writes exactly one frame,
    the chat frame with the given recipient, content and conversation id,
    on the current websocket; it does not change the agent; and it
    completes as the write does: an error of the write is raised to the
    caller unchanged, not retried. *)
Theorem send_message_writes_one_frame a w to content conv s :
  _websocket a = Some w ->
  let r := send_message to content conv s a in
  state_of r = a
  /\ List.filter is_send (trace_of r) = [WsSend w (Chat to content conv)]
  /\ result_of r = s.
Proof.
  intros Hw r. subst r.
  unfold send_message, try_except, bind, gets, await, emit, raise, except_Exception.
  rewrite Hw. cbn.
  destruct s as [[]|x]; cbn; [repeat split|].
  destruct (is_Exception x); cbn; repeat split.
Qed.

(** X23 at a concrete input: the write fails. *)
Lemma send_message_writes_one_frame_witness :
  result_of (send_message "peer" "hi" (Some "c-1")
               (Raise (OtherError "ConnectionResetError")) (agent connected))
  = Raise (OtherError "ConnectionResetError").
Proof.
  destruct (send_message_writes_one_frame (agent connected) 1 "peer" "hi" (Some "c-1")
              (Raise (OtherError "ConnectionResetError")) eq_refl) as (_ & _ & H).
  exact H.
Defined.

(** ** The pump *)

(** X24.  A frame that cannot be read does not end the pump: when [recv]
    or the decoding of the frame raises an [Exception] other than
    [ConnectionClosed] on a running, connected agent, the pump logs it,
    sleeps one second and is back in [recv] on the agent's websocket; the
    agent is unchanged, no handler is invoked and no connection is
    attempted. *)
Theorem pump_survives_unreadable_frame sys w w' e r :
  pump sys = AtRecv w ->
  _running (agent sys) = true ->
  _websocket (agent sys) = Some w' ->
  is_Exception e = true ->
  is_ConnectionClosed e = false ->
  r = Raise e \/ r = Ret (FrameBad e) ->
  Node.run sys [PumpWake (WRecv r); PumpWake WSleep] =
  mkSystem (agent sys) (AtRecv w')
           (trace sys ++ [Print (LErrorWebsocket e); Sleep 1; WsRecv w']).
Proof.
  intros Hp Hr Hw He Hc Hfr.
  destruct sys as [a pc t]. cbn [pump agent trace] in *. subst pc.
  cbn [Node.run fold_left step pump agent trace _handle_messages].
  unfold _handle_messages, loop_body, loop_head, try_except, bind, of_outcome, gets,
    emit, ret, raise, pump_handlers.
  destruct Hfr as [-> | ->]; cbn; rewrite Hc, He; cbn; rewrite Hr, Hw; cbn;
    rewrite <- app_assoc; reflexivity.
Qed.

(** X24 at a concrete input: a frame that is not JSON. *)
Lemma pump_survives_unreadable_frame_witness :
  Node.run connected
    [PumpWake (WRecv (Ret (FrameBad (OtherError "JSONDecodeError"))));
     PumpWake WSleep]
  = mkSystem (agent connected) (AtRecv 1)
      (trace connected ++
       [Print (LErrorWebsocket (OtherError "JSONDecodeError")); Sleep 1; WsRecv 1]).
Proof.
  apply (pump_survives_unreadable_frame connected 1 1 (OtherError "JSONDecodeError")
           (Ret (FrameBad (OtherError "JSONDecodeError"))));
    try reflexivity.
  right. reflexivity.
Defined.

(** X25.  A chat frame starts a dispatch: the pump logs the message and
    awaits the handler registered first; with no handler registered, as
    for a frame of another kind, it goes straight to its loop guard.
    When a dispatch is over the loop guard decides: if [stop] was called
    while the last handler was awaited, the pump returns without
    receiving again. *)
Theorem chat_frame_starts_dispatch sys w message :
  pump sys = AtRecv w ->
  step sys (PumpWake (WRecv (Ret (FrameMessage message)))) =
    match _message_handlers (agent sys) !! 0 with
    | Some h =>
        mkSystem (agent sys) (AtHandler 0 message)
                 (trace sys ++ [Print (LReceived message); Call h message])
    | None =>
        mkSystem (agent sys) (at_guard (agent sys))
                 (trace sys ++ Print (LReceived message) :: guard_trace (agent sys))
    end
  /\ step sys (PumpWake (WRecv (Ret FrameOther))) =
     mkSystem (agent sys) (at_guard (agent sys)) (trace sys ++ guard_trace (agent sys))
  /\ (forall busy i cl,
        pump busy = AtHandler i message ->
        length (_message_handlers (agent busy)) <= S i ->
        let stopped := step busy (CallStop cl) in
        step stopped (PumpWake (WHandler (Ret tt))) =
        mkSystem (agent stopped) (Finished (Ret tt)) (trace stopped)).
Proof.
  intros Hp. split; [apply (message_frame_step sys w message Hp)|].
  split.
  - destruct sys as [a pc t]. cbn [pump agent trace] in *. subst pc.
    unfold step. cbn [pump agent trace _handle_messages].
    unfold loop_body, loop_head, try_except, bind, of_outcome, gets, emit, ret,
      at_guard, guard_trace.
    cbn. destruct (_running a), (_websocket a); cbn; rewrite ?app_nil_r; reflexivity.
  - intros [a pc t] i cl Hb Hlen. cbn [pump agent] in Hb, Hlen. subst pc. cbn zeta.
    set (stopped := step (mkSystem a (AtHandler i message) t) (CallStop cl)).
    assert (Hs : pump stopped = AtHandler i message
                 /\ _running (agent stopped) = false
                 /\ _message_handlers (agent stopped) = _message_handlers a).
    { unfold stopped, step, stop, bind, modify, gets, emit, await.
      destruct a as [url aid [w0|] hs r]; cbn;
        [destruct cl as [[]|e]|]; cbn; repeat split. }
    destruct Hs as (Hps & Hr & Hh).
    rewrite (handler_returns_step stopped i message Hps).
    rewrite Hh, (lookup_ge_None_2 _ (S i)) by lia.
    unfold at_guard, guard_trace. rewrite Hr. rewrite app_nil_r. reflexivity.
Qed.

(** X25 at a concrete input: the only handler is awaited when [stop] is
    called. *)
Lemma chat_frame_starts_dispatch_witness :
  let sys := Node.run connected [CallOnMessage 1] in
  let busy := step sys (PumpWake (WRecv (Ret (FrameMessage hello)))) in
  busy = mkSystem (agent sys) (AtHandler 0 hello)
           (trace sys ++ [Print (LReceived hello); Call 1 hello])
  /\ Node.run busy [CallStop (Ret tt); PumpWake (WHandler (Ret tt))] =
     mkSystem (set_websocket None (set_running false (agent sys))) (Finished (Ret tt))
       (trace busy ++ [WsClose 1; Print LStopped]).
Proof.
  cbn zeta.
  destruct (chat_frame_starts_dispatch
              (Node.run connected [CallOnMessage 1]) 1 hello eq_refl)
    as (H1 & _ & H3).
  split; [exact H1|].
  change (Node.run ?b [CallStop (Ret tt); PumpWake (WHandler (Ret tt))])
    with (step (step b (CallStop (Ret tt))) (PumpWake (WHandler (Ret tt)))).
  rewrite (H3 (step (Node.run connected [CallOnMessage 1])
                    (PumpWake (WRecv (Ret (FrameMessage hello)))))
              0 (Ret tt) eq_refl); [reflexivity|].
  cbn. lia.
Defined.

(** X26.  The loop guard ends the pump: if [stop] is called while the
    pump sleeps off an unreadable frame, the pump returns when the sleep
    is over; it receives nothing more and attempts no connection. *)
Theorem stopped_pump_returns_at_guard sys cl :
  pump sys = AtSleep1 ->
  let stopped := step sys (CallStop cl) in
  step stopped (PumpWake WSleep) =
  mkSystem (agent stopped) (Finished (Ret tt)) (trace stopped).
Proof.
  intros Hp stopped. subst stopped.
  destruct sys as [a pc t]. cbn [pump] in Hp. subst pc.
  unfold step, stop, _handle_messages, loop_head, bind, modify, gets, emit, await, ret.
  destruct a as [url aid [w0|] hs rn]; cbn;
    [destruct cl as [[]|e]|]; cbn; rewrite app_nil_r; reflexivity.
Qed.

(** X26 at a concrete input. *)
Lemma stopped_pump_returns_at_guard_witness :
  let sys :=
    Node.run connected
      [PumpWake (WRecv (Ret (FrameBad (OtherError "JSONDecodeError"))))] in
  pump (Node.run sys [CallStop (Ret tt); PumpWake WSleep]) = Finished (Ret tt).
Proof.
  cbn zeta. cbn [Node.run fold_left].
  rewrite (stopped_pump_returns_at_guard
             (step connected
                (PumpWake (WRecv (Ret (FrameBad (OtherError "JSONDecodeError"))))))
             (Ret tt) eq_refl).
  reflexivity.
Defined.

(** X27.  A reconnect that succeeds does not end the pump that made it and
    creates one more: from the connect of its reconnect path on a running
    agent, the pump stores the new websocket, registers again if an agent
    id is configured, creates a new pump task and is itself back in
    [recv] on the new websocket. *)
Theorem reconnect_adds_a_pump sys w s :
  pump sys = AtConnect ->
  _running (agent sys) = true ->
  registration (agent sys) = [] \/ s = Ret tt ->
  step sys (PumpWake (WConnect (Ret w) s)) =
  mkSystem (set_websocket (Some w) (agent sys)) (AtRecv w)
           (trace sys ++
            WsConnect (node_url (agent sys))
              :: map (WsSend w) (registration (agent sys))
              ++ [CreateTask; WsRecv w]).
Proof.
  intros Hp Hr Hs.
  destruct sys as [a pc t]. cbn [pump agent trace] in *. subst pc.
  cbn [step pump agent trace _handle_messages].
  rewrite run_bind, (connect_run a w s Hs).
  cbn [result_of state_of trace_of fst snd].
  unfold loop_head, bind, gets, emit, ret.
  destruct a as [url aid w0 hs rn]. cbn in Hr. subst rn. cbn.
  rewrite <- !app_assoc. reflexivity.
Qed.

(** X27 at a concrete input: the connected agent reconnects on websocket
    2. *)
Lemma reconnect_adds_a_pump_witness :
  let sys :=
    Node.run connected
      [PumpWake (WRecv (Raise ConnectionClosed)); PumpWake WSleep] in
  step sys (PumpWake (WConnect (Ret 2) (Ret tt))) =
  mkSystem (set_websocket (Some 2) (agent sys)) (AtRecv 2)
    (trace sys ++
     [WsConnect "ws://localhost:8080"; WsSend 2 (Register "agent-1");
      CreateTask; WsRecv 2]).
Proof.
  apply (reconnect_adds_a_pump
           (Node.run connected
              [PumpWake (WRecv (Raise ConnectionClosed)); PumpWake WSleep])
           2 (Ret tt)); try reflexivity.
  right. reflexivity.
Defined.
End NodeMore.
